(** * zipcodes: postal-code lookup over a GeoNames dataset

    A shallow embedding of [zipcodes.go]: the dataset loader
    ([loadDataset] and its entry points), the index ([Zipcodes]), point
    lookup, the haversine distance and the radius search, followed by the
    properties the specification states about them.

    Conventions of the embedding.
    - A Go [string] is a Rocq [string] (a sequence of bytes); [len] is
      [String.length].
    - A Go [float64] is a primitive binary64 [float]; the arithmetic
      operators are the IEEE-754 ones, each rounded on its own (no fused
      multiply-add).
    - A Go [error] is represented by its message; [nil] is [None].
    - A nil map and a nil slice read like empty ones, and are [∅] and [[]].
    - Functions of Go's standard library that the package calls
      ([os.Open], [strconv.ParseFloat], [strings.ToUpper], [math.Sin], ...)
      are Section variables: every theorem holds whatever they compute,
      except where a hypothesis about them is stated. *)

From Stdlib Require Import ZArith Ascii String Floats.
From stdpp Require Import base option list gmap strings.


(** ** Go runtime: errors, process exit, the line scanner *)

Definition error := string.

(** What a call does: it returns to its caller, or the process ends
    ([log.Fatal] prints its argument and calls [os.Exit(1)]). *)
Inductive outcome (A : Type) : Type :=
| Return (a : A)
| Exit (status : Z) (logged : string).
Arguments Return {A} a.
Arguments Exit {A} status logged.

(** One successful [scanner.Scan()]: the line [scanner.Text()] holds, and
    what [scanner.Err()] would answer at that point (a read error can be
    latched while buffered lines are still being handed out). *)
Record Token : Type := { Text : string; ErrSoFar : option error }.

(** An opened file as [bufio.Scanner] presents it: the lines in order, and
    the answer of [scanner.Err()] once [Scan()] has returned false. *)
Record File : Type := { Tokens : list Token; ErrAtEOF : option error }.

Definition tab : ascii := "009"%char.

(** [strings.Split(s, sep)] for a one-byte separator: the pieces of [s]
    between the occurrences of [sep]; never empty. *)
Fixpoint strings_Split (s : string) (sep : ascii) : list string :=
  match s with
  | EmptyString => [EmptyString]
  | String c s' =>
      if Ascii.eqb c sep then EmptyString :: strings_Split s' sep
      else match strings_Split s' sep with
           | f :: fs => String c f :: fs
           | [] => [String c EmptyString]
           end
  end.

(** ** Data model *)

Record ZipCodeLocation : Type := {
  ZipCode : string;
  PlaceName : string;
  AdminName : string;
  Lat : float;
  Lon : float;
  StateCode : string
}.

Abbreviation ZipCodeLocations := (list ZipCodeLocation) (only parsing).

Record Zipcodes : Type := { DatasetList : gmap string ZipCodeLocations }.

(** The zero value [Zipcodes{}] returned next to every error. *)
Definition Zipcodes_zero : Zipcodes := {| DatasetList := ∅ |}.

Definition ErrMultipleLatLon : error := "zipcode has multiple lat/lon coordinates".
Definition ErrZipcodeNotFound : error := "zipcode not found".

Definition earthRadiusKm : float := 6371%float.
Definition earthRadiusMi : float := 3958%float.

(** [Lookup]: the records under a key, with the sentinel errors. *)
Definition Lookup (zc : Zipcodes) (zipCode : string)
  : ZipCodeLocations * option error :=
  match DatasetList zc !! zipCode with
  | None => ([], Some ErrZipcodeNotFound)
  | Some zipcodes =>
      if (1 <? length zipcodes)%nat then (zipcodes, Some ErrMultipleLatLon)
      else (zipcodes, None)
  end.

Definition IsMulti (zcl : ZipCodeLocations) : bool := (1 <? length zcl)%nat.

(** ** The loader *)

(** How one pass through the body of the scanning loop ends. *)
Inductive flow : Type :=
| Next (inCountry : bool) (m : gmap string ZipCodeLocations)
| Break
| ReturnErr (e : error).

(** After the loop: [scanner.Err()] decides between the error and the map. *)
Definition afterLoop (m : gmap string ZipCodeLocations) (err : option error)
  : Zipcodes * option error :=
  match err with
  | Some e => (Zipcodes_zero, Some ("zipcodes: error while opening file " +:+ e))
  | None => ({| DatasetList := m |}, None)
  end.

Section Loader.
(** [os.Open] on the file system the process runs on. *)
Variable os_Open : string → error + File.
(** [strconv.ParseFloat(s, 64)]: [None] when it reports an error. *)
Variable strconv_ParseFloat : string → option float.
Variable strings_ToUpper : string → string.

(** The body of [for scanner.Scan() { ... }] on the line [text]. *)
Definition scanBody (wantCountry : bool) (country text : string)
    (inCountry : bool) (m : gmap string ZipCodeLocations) : flow :=
  let splittedLine := strings_Split text tab in
  if negb (length splittedLine =? 12)%nat then
    ReturnErr "zipcodes: file line does not have 12 fields"
  else if negb wantCountry || bool_decide (nth 0 splittedLine "" = country) then
    match strconv_ParseFloat (nth 9 splittedLine "") with
    | None =>
        ReturnErr ("zipcodes: error while converting "
                   +:+ nth 9 splittedLine "" +:+ " to Latitude")
    | Some lat =>
        match strconv_ParseFloat (nth 10 splittedLine "") with
        | None =>
            ReturnErr ("zipcodes: error while converting "
                       +:+ nth 10 splittedLine "" +:+ " to Longitude")
        | Some lon =>
            Next true
              (<[nth 1 splittedLine "" :=
                   default [] (m !! nth 1 splittedLine "")
                   ++ [{| ZipCode := nth 1 splittedLine "";
                          PlaceName := nth 2 splittedLine "";
                          AdminName := nth 3 splittedLine "";
                          Lat := lat;
                          Lon := lon;
                          StateCode := nth 4 splittedLine "" |}]]> m)
        end
    end
  else if inCountry && negb (bool_decide (nth 0 splittedLine "" = country)) then
    Break
  else Next inCountry m.

(** The scanning loop over the lines still to come. *)
Fixpoint scanLoop (wantCountry : bool) (country : string)
    (toks : list Token) (errAtEOF : option error)
    (inCountry : bool) (m : gmap string ZipCodeLocations)
  : Zipcodes * option error :=
  match toks with
  | [] => afterLoop m errAtEOF
  | t :: rest =>
      match scanBody wantCountry country (Text t) inCountry m with
      | ReturnErr e => (Zipcodes_zero, Some e)
      | Break => afterLoop m (ErrSoFar t)
      | Next inCountry' m' =>
          scanLoop wantCountry country rest errAtEOF inCountry' m'
      end
  end.

Definition loadDataset (datasetPath country : string)
  : outcome (Zipcodes * option error) :=
  let wantCountry := negb (bool_decide (country = "")) in
  if wantCountry && negb (String.length country =? 2)%nat then
    Return (Zipcodes_zero,
            Some "country must be a 2 character ISO Country Code")
  else
    let country := strings_ToUpper country in
    match os_Open datasetPath with
    | inl err => Exit 1 err
    | inr file =>
        Return (scanLoop wantCountry country
                  (Tokens file) (ErrAtEOF file) false ∅)
    end.

Definition LoadDataset (datasetPath : string) := loadDataset datasetPath "".
Definition LoadDatasetByCountry (datasetPath country : string) :=
  loadDataset datasetPath country.
Definition New (datasetPath : string) := LoadDataset datasetPath.
Definition NewByCountry (datasetPath country : string) :=
  LoadDatasetByCountry datasetPath country.
End Loader.

(** ** Distances and the radius search *)

(** [math.Pi] as a [float64]. *)
Definition math_Pi : float := 0x1.921fb54442d18p+1%float.

Section Geo.
(** The functions of Go's [math] package that the package calls. *)
Variables math_Sin math_Cos math_Sqrt math_Round : float → float.
Variables math_Atan2 math_Pow : float → float → float.

Definition degreesToRadians (d : float) : float :=
  (d * math_Pi / 180)%float.

Definition hsin (t : float) : float :=
  math_Pow (math_Sin (t / 2)%float) 2%float.

Definition DistanceBetweenPoints
    (latitude1 longitude1 latitude2 longitude2 radius : float) : float :=
  let lat1 := degreesToRadians latitude1 in
  let lon1 := degreesToRadians longitude1 in
  let lat2 := degreesToRadians latitude2 in
  let lon2 := degreesToRadians longitude2 in
  let diffLat := (lat2 - lat1)%float in
  let diffLon := (lon2 - lon1)%float in
  let a := (hsin diffLat + math_Cos lat1 * math_Cos lat2 * hsin diffLon)%float in
  let c := (2 * math_Atan2 (math_Sqrt a) (math_Sqrt (1 - a)))%float in
  let distance := (c * radius)%float in
  (math_Round (distance * 100) / 100)%float.

Definition CalculateDistance (zipcodeLocationA zipcodeLocationB : ZipCodeLocation)
    (radius : float) : float :=
  DistanceBetweenPoints (Lat zipcodeLocationA) (Lon zipcodeLocationA)
    (Lat zipcodeLocationB) (Lon zipcodeLocationB) radius.

Definition DistanceInKm (zipcodeLocationA zipcodeLocationB : ZipCodeLocation) : float :=
  CalculateDistance zipcodeLocationA zipcodeLocationB earthRadiusKm.

Definition DistanceInMiles (zipcodeLocationA zipcodeLocationB : ZipCodeLocation) : float :=
  CalculateDistance zipcodeLocationA zipcodeLocationB earthRadiusMi.

Definition DistanceInKmToZipCode (zipcodeLocation : ZipCodeLocation)
    (latitude longitude : float) : float :=
  DistanceBetweenPoints (Lat zipcodeLocation) (Lon zipcodeLocation)
    latitude longitude earthRadiusKm.

Definition DistanceInMilToZipCode (zipcodeLocation : ZipCodeLocation)
    (latitude longitude : float) : float :=
  DistanceBetweenPoints (Lat zipcodeLocation) (Lon zipcodeLocation)
    latitude longitude earthRadiusMi.

(** The inner loop of [FindZipcodesWithinRadius]: the records [elm] of
    one key, appended to [zipcodeList] when they qualify. *)
Definition collectWithin (zipcodeLocation : ZipCodeLocation)
    (maxRadius earthRadius : float)
    (zipcodeList : list string) (elm : ZipCodeLocations) : list string :=
  foldl (λ zipcodeList zcls,
           if negb (bool_decide (ZipCode zcls = ZipCode zipcodeLocation)) then
             let distance :=
               DistanceBetweenPoints (Lat zipcodeLocation) (Lon zipcodeLocation)
                 (Lat zcls) (Lon zcls) earthRadius in
             if (distance <? maxRadius)%float
             then zipcodeList ++ [ZipCode zcls]
             else zipcodeList
           else zipcodeList)
        zipcodeList elm.

(** [FindZipcodesWithinRadius] when [range zc.DatasetList] visits the
    entries in the order [visit]. *)
Definition FindZipcodesWithinRadius_visiting
    (visit : list (string * ZipCodeLocations))
    (zipcodeLocation : ZipCodeLocation) (maxRadius earthRadius : float)
  : list string :=
  foldl (λ zipcodeList entry,
           collectWithin zipcodeLocation maxRadius earthRadius zipcodeList entry.2)
        [] visit.

(** Go leaves the iteration order of a map unspecified: the call may
    return [zipcodeList] when some order of the entries produces it. *)
Definition FindZipcodesWithinRadius (zc : Zipcodes)
    (zipcodeLocation : ZipCodeLocation) (maxRadius earthRadius : float)
    (zipcodeList : list string) : Prop :=
  ∃ visit, visit ≡ₚ map_to_list (DatasetList zc) ∧
    zipcodeList =
      FindZipcodesWithinRadius_visiting visit zipcodeLocation maxRadius earthRadius.

Definition GetZipcodesWithinKmRadius (zc : Zipcodes)
    (zipcodeLocation : ZipCodeLocation) (radius : float) : list string → Prop :=
  FindZipcodesWithinRadius zc zipcodeLocation radius earthRadiusKm.

Definition GetZipcodesWithinMlRadius (zc : Zipcodes)
    (zipcodeLocation : ZipCodeLocation) (radius : float) : list string → Prop :=
  FindZipcodesWithinRadius zc zipcodeLocation radius earthRadiusMi.
End Geo.

(** ** Vocabulary of the specification *)

(** The fields of a source line and the ones the loader reads. *)
Definition lineFields (text : string) : list string := strings_Split text tab.
Definition lineCountry (text : string) : string := nth 0 (lineFields text) "".
Definition lineCode (text : string) : string := nth 1 (lineFields text) "".
Definition lineLat (text : string) : string := nth 9 (lineFields text) "".
Definition lineLon (text : string) : string := nth 10 (lineFields text) "".

(** The record a source line stands for, when both coordinates parse. *)
Definition recordOf (strconv_ParseFloat : string → option float) (text : string)
  : option ZipCodeLocation :=
  lat ← strconv_ParseFloat (lineLat text);
  lon ← strconv_ParseFloat (lineLon text);
  Some {| ZipCode := lineCode text;
          PlaceName := nth 2 (lineFields text) "";
          AdminName := nth 3 (lineFields text) "";
          Lat := lat;
          Lon := lon;
          StateCode := nth 4 (lineFields text) "" |}.

(** The error messages of the loader. *)
Definition errCountry : error := "country must be a 2 character ISO Country Code".
Definition errFields : error := "zipcodes: file line does not have 12 fields".
Definition errLat (text : string) : error :=
  "zipcodes: error while converting " +:+ lineLat text +:+ " to Latitude".
Definition errLon (text : string) : error :=
  "zipcodes: error while converting " +:+ lineLon text +:+ " to Longitude".
Definition errRead (e : error) : error :=
  "zipcodes: error while opening file " +:+ e.

(** The error [e] is the loader's complaint about the line [text]: a wrong
    number of fields, or a coordinate that does not parse, named in [e]. *)
Definition rejects (strconv_ParseFloat : string → option float)
    (text : string) (e : error) : Prop :=
  length (lineFields text) ≠ 12 ∧ e = errFields ∨
  strconv_ParseFloat (lineLat text) = None ∧ e = errLat text ∨
  strconv_ParseFloat (lineLon text) = None ∧ e = errLon text.

(** A line passes the country filter: no filter, or field 0 is the
    (upper-cased) filter. *)
Definition wanted (wantCountry : bool) (country text : string) : bool :=
  negb wantCountry || bool_decide (lineCountry text = country).

Fixpoint takeWhile {A} (p : A → bool) (l : list A) : list A :=
  match l with
  | [] => []
  | x :: l' => if p x then x :: takeWhile p l' else []
  end.

Fixpoint dropWhile {A} (p : A → bool) (l : list A) : list A :=
  match l with
  | [] => []
  | x :: l' => if p x then dropWhile p l' else l
  end.

(** The lines a load accepts: lines that fail the filter are passed over
    until the first one passes it; from there, the lines up to the first
    one that fails it. [started] tells whether a line was accepted before. *)
Definition acceptedFrom (started wantCountry : bool) (country : string)
    (lines : list string) : list string :=
  takeWhile (wanted wantCountry country)
    (if started then lines
     else dropWhile (λ text, negb (wanted wantCountry country text)) lines).

Definition acceptedLines := acceptedFrom false.

(** The lines a load looks at, unless an error ends it before: the
    accepted ones, the ones passed over before them, and the line that
    ends the scan, when there is one. *)
Definition scannedFrom (started wantCountry : bool) (country : string)
    (lines : list string) : list string :=
  let skipped :=
    if started then []
    else takeWhile (λ text, negb (wanted wantCountry country text)) lines in
  let rest :=
    if started then lines
    else dropWhile (λ text, negb (wanted wantCountry country text)) lines in
  skipped ++ takeWhile (wanted wantCountry country) rest
          ++ take 1 (dropWhile (wanted wantCountry country) rest).

Definition scannedLines := scannedFrom false.

(** One more record under its code, after the ones already there. *)
Definition addRecord (m : gmap string ZipCodeLocations) (r : ZipCodeLocation)
  : gmap string ZipCodeLocations :=
  <[ZipCode r := default [] (m !! ZipCode r) ++ [r]]> m.

(** All records of an index. *)
Definition allRecords (zc : Zipcodes) : list ZipCodeLocation :=
  mjoin (snd <$> map_to_list (DatasetList zc)).

(** How many times the byte [c] occurs in [s]. *)
Fixpoint countByte (c : ascii) (s : string) : nat :=
  match s with
  | EmptyString => 0
  | String c' s' => (if Ascii.eqb c' c then 1 else 0) + countByte c s'
  end.

(** The byte [c] does not occur in [s]. *)
Definition freeOf (c : ascii) (s : string) : Prop := countByte c s = 0.

Section Formula.
Variables math_Sin math_Cos math_Sqrt math_Round : float → float.
Variables math_Atan2 math_Pow : float → float → float.

Definition radians (deg : float) : float := (deg * math_Pi / 180)%float.
Definition sq (x : float) : float := math_Pow x 2%float.

(** The haversine formula of the specification, on two points given as
    (latitude, longitude) in degrees:
    a = sin^2(dLat/2) + cos(lat1) cos(lat2) sin^2(dLon/2),
    c = 2 atan2(sqrt a, sqrt (1 - a)), distance = c radius. *)
Definition haversine (p1 p2 : float * float) (radius : float) : float :=
  let phi1 := radians p1.1 in
  let phi2 := radians p2.1 in
  let dLat := (phi2 - phi1)%float in
  let dLon := (radians p2.2 - radians p1.2)%float in
  let a := (sq (math_Sin (dLat / 2)) +
            math_Cos phi1 * math_Cos phi2 * sq (math_Sin (dLon / 2)))%float in
  let c := (2 * math_Atan2 (math_Sqrt a) (math_Sqrt (1 - a)))%float in
  (c * radius)%float.

(** Two decimal places: the value times 100, rounded to an integer by
    [math.Round] (half away from zero), divided by 100. *)
Definition round2 (value : float) : float :=
  (math_Round (value * 100) / 100)%float.

(** A record is reported by the radius search around [origin]. *)
Definition near (origin : ZipCodeLocation) (maxRadius earthRadius : float)
    (r : ZipCodeLocation) : bool :=
  negb (bool_decide (ZipCode r = ZipCode origin)) &&
  (DistanceBetweenPoints math_Sin math_Cos math_Sqrt math_Round
     math_Atan2 math_Pow
     (Lat origin) (Lon origin) (Lat r) (Lon r) earthRadius <? maxRadius)%float.
End Formula.

(** ** A sample environment

    Stand-ins for the standard library and a small file system, to run the
    definitions on concrete input. *)
Module Sample.

(** [strings.ToUpper] on ASCII text. *)
Definition upper (c : ascii) : ascii :=
  let n := nat_of_ascii c in
  if ((97 <=? n) && (n <=? 122))%nat then ascii_of_nat (n - 32) else c.

Fixpoint ToUpper (s : string) : string :=
  match s with
  | EmptyString => EmptyString
  | String c s' => String (upper c) (ToUpper s')
  end.

Definition digit (c : ascii) : option Z :=
  let n := Z.of_nat (nat_of_ascii c) in
  if ((48 <=? n) && (n <=? 57))%Z then Some (n - 48)%Z else None.

Fixpoint digits (s : string) (acc : Z) : option Z :=
  match s with
  | EmptyString => Some acc
  | String c s' => d ← digit c; digits s' (10 * acc + d)%Z
  end.

Definition ofZ (n : Z) : float := SF2Prim (binary_normalize prec emax n 0 false).

(** [strconv.ParseFloat] on plain decimal numerals of at most 15 digits
    (sign, digits, optional point and digits): the quotient of two
    exactly represented integers is the correctly rounded value.
    Everything else is reported as an error. *)
Definition ParseFloat (s : string) : option float :=
  let '(neg, body) :=
    match s with
    | String "-" s' => (true, s')
    | String "+" s' => (false, s')
    | _ => (false, s)
    end in
  let signed (x : float) := if neg then (- x)%float else x in
  match strings_Split body "."%char with
  | [ip] =>
      if bool_decide (ip = "") || (15 <? String.length ip)%nat then None
      else m ← digits ip 0; Some (signed (ofZ m))
  | [ip; fp] =>
      if bool_decide (ip +:+ fp = "") || (15 <? String.length (ip +:+ fp))%nat
      then None
      else m ← digits (ip +:+ fp) 0;
           Some (signed (ofZ m / ofZ (10 ^ Z.of_nat (String.length fp)))%float)
  | _ => None
  end.

(** Stand-ins for [math]: polynomials that are close near 0, and
    [math.Round] by its contract (nearest integer, halves away from
    zero, sign kept). *)
Definition Sin (x : float) : float :=
  (x * (1 - x * x / 6 * (1 - x * x / 20)))%float.
Definition Cos (x : float) : float :=
  (1 - x * x / 2 * (1 - x * x / 12))%float.
Definition Sqrt (x : float) : float := PrimFloat.sqrt x.
Definition Atan2 (y x : float) : float := (y / x)%float.
Definition Pow (x y : float) : float :=
  if (y =? 2)%float then (x * x)%float else nan.
Definition Round (x : float) : float :=
  match Prim2SF x with
  | S754_finite s m e =>
      if (0 <=? e)%Z then x
      else
        let whole := Z.shiftr (Z.pos m) (- e) in
        let half := Z.testbit (Z.pos m) (- e - 1) in
        let r := ofZ (if half then whole + 1 else whole) in
        if s then (- r)%float else r
  | _ => x
  end.

Definition line (fields : list string) : Token :=
  {| Text := String.concat (String tab "") fields; ErrSoFar := None |}.

Definition guteborn : Token :=
  line ["DE"; "01945"; "Guteborn"; "Brandenburg"; "BB"; ""; "00"; ""; "";
        "51.4167"; "13.9333"; ""].
Definition ruhland : Token :=
  line ["DE"; "01945"; "Ruhland"; "Brandenburg"; "BB"; ""; "00"; ""; "";
        "51.4667"; "13.8667"; ""].
Definition hermsdorf : Token :=
  line ["DE"; "01946"; "Hermsdorf"; "Brandenburg"; "BB"; ""; "00"; ""; "";
        "51.4207"; "13.9333"; ""].
Definition cottbus : Token :=
  line ["DE"; "03058"; "Cottbus"; "Brandenburg"; "BB"; ""; "00"; ""; "";
        "51.7000"; "14.3833"; ""].
Definition newyork : Token :=
  line ["US"; "10001"; "New York"; "New York"; "NY"; "New York"; "061"; "";
        ""; "40.7484"; "-73.9967"; "4"].
Definition albany : Token :=
  line ["US"; "12201"; "Albany"; "New York"; "NY"; "Albany"; "001"; "";
        ""; "42.6149"; "-73.9708"; "4"].
Definition ottawa_wrong : Token :=
  line ["CA"; "K1A"; "Ottawa"; "Ontario"; "ON"; ""; ""; ""; "";
        "WRONG"; "-75.6972"; "6"].
Definition short : Token := line ["DE"; "01945"; "Guteborn"; "Brandenburg"; "BB"].
Definition wrong_lat : Token :=
  line ["DE"; "01945"; "Guteborn"; "Brandenburg"; "BB"; ""; "00"; ""; "";
        "WRONG"; "13.9333"; ""].
Definition wrong_lon : Token :=
  line ["DE"; "01945"; "Guteborn"; "Brandenburg"; "BB"; ""; "00"; ""; "";
        "51.4167"; "WRONG"; ""].

Definition file (toks : list Token) : File :=
  {| Tokens := toks; ErrAtEOF := None |}.

(** The files that exist; every other path cannot be opened. *)
Definition os_Open (path : string) : error + File :=
  if bool_decide (path = "valid.txt") then
    inr (file [guteborn; ruhland; hermsdorf; cottbus; newyork; albany])
  else if bool_decide (path = "ungrouped.txt") then
    inr (file [ottawa_wrong; newyork; guteborn; albany; short])
  else if bool_decide (path = "wrong_length.txt") then
    inr (file [guteborn; short; cottbus])
  else if bool_decide (path = "wrong_lat.txt") then
    inr (file [guteborn; wrong_lat; cottbus])
  else if bool_decide (path = "wrong_lon.txt") then
    inr (file [guteborn; wrong_lon; cottbus])
  else inl ("open " +:+ path +:+ ": no such file or directory").

Definition load := loadDataset os_Open ParseFloat ToUpper.

(** The index that loading [valid.txt] returns. *)
Definition valid : Zipcodes :=
  match load "valid.txt" "" with
  | Return (zc, _) => zc
  | Exit _ _ => Zipcodes_zero
  end.

Definition origin : ZipCodeLocation :=
  {| ZipCode := "01945"; PlaceName := "Guteborn"; AdminName := "Brandenburg";
     Lat := 0x1.9b5566cf41f21p+5%float; Lon := 0x1.bddd97f62b6aep+3%float;
     StateCode := "BB" |}.

Definition other : ZipCodeLocation :=
  {| ZipCode := "03058"; PlaceName := "Cottbus"; AdminName := "Brandenburg";
     Lat := default 0%float (ParseFloat "51.7000");
     Lon := default 0%float (ParseFloat "14.3833");
     StateCode := "BB" |}.

(** The index that loading [valid.txt] under the filter "us" returns. *)
Definition valid_us : Zipcodes :=
  match load "valid.txt" "us" with
  | Return (zc, _) => zc
  | Exit _ _ => Zipcodes_zero
  end.

Definition valid_file : File :=
  file [guteborn; ruhland; hermsdorf; cottbus; newyork; albany].

(** A record without a latitude, and two records on opposite sides of
    the globe. *)
Definition nowhere : ZipCodeLocation :=
  {| ZipCode := "00000"; PlaceName := "Nowhere"; AdminName := "";
     Lat := nan; Lon := 0%float; StateCode := "" |}.

Definition west : ZipCodeLocation :=
  {| ZipCode := "W"; PlaceName := "West"; AdminName := "";
     Lat := default 0%float (ParseFloat "0.02");
     Lon := default 0%float (ParseFloat "-178");
     StateCode := "" |}.

Definition east : ZipCodeLocation :=
  {| ZipCode := "E"; PlaceName := "East"; AdminName := "";
     Lat := default 0%float (ParseFloat "-0.02");
     Lon := default 0%float (ParseFloat "2");
     StateCode := "" |}.
End Sample.

(** * Properties *)

(** ** Lists and maps *)

Lemma takeWhile_dropWhile {A} (p : A → bool) (l : list A) :
  takeWhile p l ++ dropWhile p l = l.
Proof.
  induction l as [|x l IH]; simpl; [done|].
  destruct (p x); simpl; [by rewrite IH | done].
Qed.

Lemma Forall_takeWhile {A} (p : A → bool) (l : list A) :
  Forall (λ x, p x = true) (takeWhile p l).
Proof.
  induction l as [|x l IH]; simpl; [constructor|].
  destruct (p x) eqn:Hp; [by constructor | constructor].
Qed.

Lemma takeWhile_all {A} (p : A → bool) (l : list A) :
  Forall (λ x, p x = true) l → takeWhile p l = l.
Proof.
  induction 1 as [|x l Hx _ IH]; simpl; [done|]. by rewrite Hx, IH.
Qed.

Lemma elem_of_takeWhile {A} (p : A → bool) (l : list A) x :
  x ∈ takeWhile p l → x ∈ l.
Proof. intros H. rewrite <- (takeWhile_dropWhile p l). apply elem_of_app. by left. Qed.

Lemma elem_of_dropWhile {A} (p : A → bool) (l : list A) x :
  x ∈ dropWhile p l → x ∈ l.
Proof. intros H. rewrite <- (takeWhile_dropWhile p l). apply elem_of_app. by right. Qed.

Lemma lookup_addRecord (m : gmap string ZipCodeLocations) r k :
  addRecord m r !! k =
    if decide (ZipCode r = k) then Some (default [] (m !! k) ++ [r]) else m !! k.
Proof.
  unfold addRecord. rewrite lookup_insert.
  destruct (decide (ZipCode r = k)) as [->|]; done.
Qed.

(** Where the records of a code end up: after the ones already under the
    code, in the order of arrival. *)
Lemma lookup_foldl_addRecord recs : ∀ (m : gmap string ZipCodeLocations) k,
  foldl addRecord m recs !! k =
    match filter (λ r, ZipCode r = k) recs with
    | [] => m !! k
    | rs => Some (default [] (m !! k) ++ rs)
    end.
Proof.
  induction recs as [|r recs IH]; intros m k; simpl; [done|].
  rewrite IH, lookup_addRecord, filter_cons.
  destruct (decide (ZipCode r = k)) as [Hk|Hk]; simpl.
  - destruct (filter _ recs); [done|]. by rewrite <- app_assoc.
  - done.
Qed.

Lemma lookup_index_of recs k :
  foldl addRecord ∅ recs !! k =
    match filter (λ r, ZipCode r = k) recs with
    | [] => None
    | rs => Some rs
    end.
Proof. rewrite lookup_foldl_addRecord, lookup_empty. by destruct (filter _ recs). Qed.

Lemma mapM_filter {A B} (f : A → option B) (P : A → Prop) (Q : B → Prop)
    `{∀ x, Decision (P x)} `{∀ y, Decision (Q y)} (l : list A) (k : list B) :
  (∀ x y, f x = Some y → P x ↔ Q y) →
  mapM f l = Some k → mapM f (filter P l) = Some (filter Q k).
Proof.
  intros HPQ. rewrite !mapM_Some.
  induction 1 as [|x y l' k' Hxy _ IH]; [constructor|].
  rewrite !filter_cons.
  destruct (decide (P x)) as [HP|HP], (decide (Q y)) as [HQ|HQ]; try done.
  - by constructor.
  - by apply (HPQ _ _ Hxy) in HP.
  - by apply (HPQ _ _ Hxy) in HQ.
Qed.

Lemma mapM_elem_of {A B} (f : A → option B) (l : list A) k y :
  mapM f l = Some k → y ∈ k → ∃ x, x ∈ l ∧ f x = Some y.
Proof.
  rewrite mapM_Some. induction 1 as [|x y' l' k' Hxy _ IH]; intros Hy.
  - by apply elem_of_nil in Hy.
  - apply elem_of_cons in Hy as [->|Hy].
    + exists x. split; [left | done].
    + destruct (IH Hy) as (x' & ? & ?). exists x'. split; [by right | done].
Qed.

Lemma recordOf_code pf text r : recordOf pf text = Some r → ZipCode r = lineCode text.
Proof.
  unfold recordOf. intros H.
  destruct (pf (lineLat text)); [|done]. simpl in H.
  destruct (pf (lineLon text)); [|done]. by simplify_eq/=.
Qed.

(** ** The loop body, case by case *)

Section LoaderFacts.
Variable os_Open : string → error + File.
Variable strconv_ParseFloat : string → option float.
Variable strings_ToUpper : string → string.

Local Abbreviation body := (scanBody strconv_ParseFloat).
Local Abbreviation loop := (scanLoop strconv_ParseFloat).
Local Abbreviation load := (loadDataset os_Open strconv_ParseFloat strings_ToUpper).
Local Abbreviation built := (recordOf strconv_ParseFloat).

Lemma body_fields want c text inC m :
  length (lineFields text) ≠ 12 → body want c text inC m = ReturnErr errFields.
Proof.
  intros H. unfold scanBody. fold (lineFields text).
  by destruct (Nat.eqb_spec (length (lineFields text)) 12).
Qed.

Lemma body_wanted want c text inC m :
  length (lineFields text) = 12 → wanted want c text = true →
  body want c text inC m =
    match strconv_ParseFloat (lineLat text) with
    | None => ReturnErr (errLat text)
    | Some _ =>
        match built text with
        | None => ReturnErr (errLon text)
        | Some r => Next true (addRecord m r)
        end
    end.
Proof.
  intros H12 Hw. unfold scanBody, wanted, recordOf, lineCountry, lineLat, lineLon,
    lineCode, addRecord in *. fold (lineFields text).
  rewrite H12, Hw. simpl.
  destruct (strconv_ParseFloat (nth 9 _ _)); [|done]. simpl.
  destruct (strconv_ParseFloat (nth 10 _ _)); done.
Qed.

Lemma body_unwanted want c text inC m :
  length (lineFields text) = 12 → wanted want c text = false →
  body want c text inC m = if inC then Break else Next false m.
Proof.
  intros H12 Hw. unfold scanBody, wanted, lineCountry in *. fold (lineFields text).
  rewrite H12, Hw. simpl.
  apply orb_false_iff in Hw as [_ Hc]. rewrite Hc. by destruct inC.
Qed.

(** ** Accepted and scanned lines, one line at a time *)

Ltac unfold_lines H :=
  unfold acceptedFrom, scannedFrom; repeat (simpl; rewrite ?H).

Lemma acceptedFrom_wanted started want c text lines :
  wanted want c text = true →
  acceptedFrom started want c (text :: lines) =
    text :: acceptedFrom true want c lines.
Proof. intros H. destruct started; by unfold_lines H. Qed.

Lemma acceptedFrom_skip want c text lines :
  wanted want c text = false →
  acceptedFrom false want c (text :: lines) = acceptedFrom false want c lines.
Proof. intros H. by unfold_lines H. Qed.

Lemma acceptedFrom_stop want c text lines :
  wanted want c text = false → acceptedFrom true want c (text :: lines) = [].
Proof. intros H. by unfold_lines H. Qed.

Lemma scannedFrom_wanted started want c text lines :
  wanted want c text = true →
  scannedFrom started want c (text :: lines) =
    text :: scannedFrom true want c lines.
Proof. intros H. destruct started; by unfold_lines H. Qed.

Lemma scannedFrom_skip want c text lines :
  wanted want c text = false →
  scannedFrom false want c (text :: lines) =
    text :: scannedFrom false want c lines.
Proof. intros H. by unfold_lines H. Qed.

Lemma scannedFrom_stop want c text lines :
  wanted want c text = false → scannedFrom true want c (text :: lines) = [text].
Proof. intros H. by unfold_lines H. Qed.

Lemma scannedFrom_head started want c text lines :
  ∃ more, scannedFrom started want c (text :: lines) = text :: more.
Proof.
  destruct (wanted want c text) eqn:H.
  - eexists. by apply scannedFrom_wanted.
  - destruct started; eexists; [by apply scannedFrom_stop | by apply scannedFrom_skip].
Qed.

Lemma accepted_wanted started want c lines text :
  text ∈ acceptedFrom started want c lines → wanted want c text = true.
Proof.
  apply (proj1 (Forall_forall (λ text, wanted want c text = true) _)).
  apply Forall_takeWhile.
Qed.

(** Without a filter every line is accepted. *)
Lemma acceptedFrom_all started c lines : acceptedFrom started false c lines = lines.
Proof.
  unfold acceptedFrom.
  assert (Hall : ∀ l : list string, Forall (λ t, wanted false c t = true) l)
    by (intros l; by apply Forall_forall).
  destruct started; [by apply takeWhile_all|].
  rewrite takeWhile_all by done.
  induction lines as [|t l IH]; simpl; done.
Qed.

(** ** The loop *)

(** The loop ends with an error and the zero value, or with an index
    and no error. *)
Lemma afterLoop_shape m e :
  (∃ err, afterLoop m e = (Zipcodes_zero, Some err)) ∨
  afterLoop m e = ({| DatasetList := m |}, None) ∧ e = None.
Proof. destruct e; simpl; eauto. Qed.

(** A load that succeeds has seen twelve fields on every scanned line,
    has built a record from every accepted line, and returns these
    records under their codes. *)
Lemma loop_ok want c toks : ∀ eof inC m zc,
  loop want c toks eof inC m = (zc, None) →
  ∃ recs,
    mapM built (acceptedFrom inC want c (Text <$> toks)) = Some recs ∧
    DatasetList zc = foldl addRecord m recs ∧
    Forall (λ text, length (lineFields text) = 12)
      (scannedFrom inC want c (Text <$> toks)).
Proof.
  induction toks as [|t toks IH]; intros eof inC m zc Hrun; simpl in Hrun.
  - destruct eof; simplify_eq/=. exists []. by destruct inC.
  - destruct (decide (length (lineFields (Text t)) = 12)) as [H12|H12];
      [|by rewrite body_fields in Hrun].
    rewrite fmap_cons.
    destruct (wanted want c (Text t)) eqn:Hw.
    + rewrite body_wanted in Hrun by done.
      destruct (strconv_ParseFloat (lineLat (Text t))); [|done].
      destruct (built (Text t)) as [r|] eqn:Hr; [|done].
      apply IH in Hrun as (recs & Hrecs & Hzc & Hall).
      exists (r :: recs). rewrite acceptedFrom_wanted, scannedFrom_wanted by done.
      split_and!; [|done|by constructor].
      simpl. rewrite Hr. simpl. by rewrite Hrecs.
    + rewrite body_unwanted in Hrun by done. destruct inC.
      * destruct (ErrSoFar t); simplify_eq/=. exists [].
        rewrite acceptedFrom_stop, scannedFrom_stop by done.
        split_and!; [done..|]. by repeat constructor.
      * apply IH in Hrun as (recs & Hrecs & Hzc & Hall).
        exists recs. rewrite acceptedFrom_skip, scannedFrom_skip by done.
        split_and!; [done..|]. by constructor.
Qed.

Lemma accepted_in_source started want c lines text :
  text ∈ acceptedFrom started want c lines → text ∈ lines.
Proof.
  unfold acceptedFrom. intros H%elem_of_takeWhile.
  destruct started; [done | by eapply elem_of_dropWhile].
Qed.

Lemma accepted_scanned started want c lines text :
  text ∈ acceptedFrom started want c lines →
  text ∈ scannedFrom started want c lines.
Proof.
  unfold acceptedFrom, scannedFrom. intros H.
  apply elem_of_app. right. apply elem_of_app. by left.
Qed.

(** A scanned line with a wrong number of fields, or an accepted one
    with a coordinate that does not parse, ends the load with the
    complaint about the first such line and with the zero value. *)
Lemma loop_bad want c toks : ∀ eof inC m,
  Exists (λ text, length (lineFields text) ≠ 12 ∨
                  wanted want c text = true ∧ built text = None)
    (scannedFrom inC want c (Text <$> toks)) →
  ∃ culprit e,
    culprit ∈ Text <$> toks ∧ rejects strconv_ParseFloat culprit e ∧
    loop want c toks eof inC m = (Zipcodes_zero, Some e).
Proof.
  induction toks as [|t toks IH]; intros eof inC m Hbad.
  { destruct inC; by apply Exists_nil in Hbad. }
  rewrite fmap_cons in *. simpl.
  destruct (decide (length (lineFields (Text t)) = 12)) as [H12|H12]; last first.
  { exists (Text t), errFields. rewrite body_fields by done.
    split_and!; [left | by left | done]. }
  destruct (wanted want c (Text t)) eqn:Hw.
  - rewrite body_wanted by done.
    destruct (strconv_ParseFloat (lineLat (Text t))) as [lat|] eqn:Hlat; last first.
    { exists (Text t), (errLat (Text t)). split_and!; [left | right; by left | done]. }
    destruct (built (Text t)) as [r|] eqn:Hr.
    + rewrite scannedFrom_wanted in Hbad by done.
      apply Exists_cons in Hbad as [[?|[_ ?]]|Hbad]; [done|congruence|].
      destruct (IH eof true (addRecord m r) Hbad) as (culprit & e & ? & ? & ?).
      exists culprit, e. split_and!; [by right | done..].
    + exists (Text t), (errLon (Text t)). split_and!; [left | | done].
      right; right. split; [|done].
      unfold recordOf in Hr. rewrite Hlat in Hr. simpl in Hr.
      by destruct (strconv_ParseFloat (lineLon (Text t))).
  - rewrite body_unwanted by done. destruct inC.
    + rewrite scannedFrom_stop in Hbad by done.
      apply Exists_cons in Hbad as [[?|[? _]]|Hbad]; [done|congruence|].
      by apply Exists_nil in Hbad.
    + rewrite scannedFrom_skip in Hbad by done.
      apply Exists_cons in Hbad as [[?|[? _]]|Hbad]; [done|congruence|].
      destruct (IH eof false m Hbad) as (culprit & e & ? & ? & ?).
      exists culprit, e. split_and!; [by right | done..].
Qed.

(** Lines that fail the filter before any line was accepted are passed over. *)
Lemma loop_skip c skipped rest eof m :
  Forall (λ t, length (lineFields (Text t)) = 12 ∧ lineCountry (Text t) ≠ c) skipped →
  loop true c (skipped ++ rest) eof false m = loop true c rest eof false m.
Proof.
  induction 1 as [|t skipped [H12 Hc] _ IH]; simpl; [done|].
  rewrite body_unwanted; [done..|].
  unfold wanted. simpl. by apply bool_decide_eq_false.
Qed.

(** A run of lines that pass the filter and parse is accepted as a whole. *)
Lemma loop_run c run rest eof : ∀ inC m recs,
  Forall (λ t, length (lineFields (Text t)) = 12 ∧ lineCountry (Text t) = c) run →
  mapM built (Text <$> run) = Some recs →
  loop true c (run ++ rest) eof inC m =
    loop true c rest eof (if run is [] then inC else true) (foldl addRecord m recs).
Proof.
  induction run as [|t run IH]; intros inC m recs Hrun Hrecs.
  { apply mapM_Some, Forall2_nil_inv_l in Hrecs as ->. done. }
  apply Forall_cons in Hrun as [[H12 Hc] Hrun].
  rewrite fmap_cons in Hrecs.
  apply mapM_Some, Forall2_cons_inv_l in Hrecs as (r & recs' & Hr & Hrecs & ->).
  apply mapM_Some in Hrecs.
  simpl. rewrite body_wanted; [|done|]; last first.
  { unfold wanted. simpl. by apply bool_decide_eq_true. }
  rewrite Hr. unfold recordOf in Hr.
  destruct (strconv_ParseFloat (lineLat (Text t))); [|done].
  rewrite (IH true (addRecord m r) recs') by done. by destruct run.
Qed.

(** What a returned load went through. *)
Lemma load_ok path country zc :
  load path country = Return (zc, None) →
  ∃ file recs,
    os_Open path = inr file ∧
    mapM built (acceptedLines (negb (bool_decide (country = "")))
                  (strings_ToUpper country) (Text <$> Tokens file)) = Some recs ∧
    DatasetList zc = foldl addRecord ∅ recs.
Proof.
  unfold loadDataset. intros H.
  destruct (_ && _); [done|].
  destruct (os_Open path) as [e|file]; [done|].
  injection H as H. apply loop_ok in H as (recs & ? & ? & _).
  by exists file, recs.
Qed.

(** ** Lookup *)

(** C1. Lookup trichotomy: on an absent code [Lookup] returns no data
    and [ErrZipcodeNotFound]; on a code with exactly one record, that
    one-element sequence and no error; on a code with two or more
    records, all of them together with [ErrMultipleLatLon]. *)
Theorem lookup_trichotomy (zc : Zipcodes) (code : string) :
  (DatasetList zc !! code = None →
     Lookup zc code = ([], Some ErrZipcodeNotFound)) ∧
  (∀ r, DatasetList zc !! code = Some [r] → Lookup zc code = ([r], None)) ∧
  (∀ recs, DatasetList zc !! code = Some recs → 2 ≤ length recs →
     Lookup zc code = (recs, Some ErrMultipleLatLon)).
Proof.
  unfold Lookup. split_and!.
  - by intros ->.
  - by intros r ->.
  - intros recs -> Hlen. by destruct (Nat.ltb_spec 1 (length recs)); [|lia].
Qed.

(** C2. Round-trip lookup: after a load that returned an index, every
    code carried by an accepted line is found, and [Lookup] returns a
    non-empty sequence: the records built from the accepted lines that
    carry the code, in the order of the source. *)
Theorem round_trip_lookup path country zc :
  load path country = Return (zc, None) →
  ∃ file,
    os_Open path = inr file ∧
    ∀ code,
      code ∈ lineCode <$>
        acceptedLines (negb (bool_decide (country = "")))
          (strings_ToUpper country) (Text <$> Tokens file) →
      ∃ recs,
        Lookup zc code =
          (recs, if (1 <? length recs)%nat then Some ErrMultipleLatLon else None) ∧
        recs ≠ [] ∧
        mapM built
          (filter (λ text, lineCode text = code)
             (acceptedLines (negb (bool_decide (country = "")))
                (strings_ToUpper country) (Text <$> Tokens file)))
        = Some recs.
Proof.
  intros (file & all & Hopen & Hall & Hzc)%load_ok.
  exists file. split; [done|]. intros code Hcode.
  assert (Hsel : mapM built
            (filter (λ text, lineCode text = code)
               (acceptedLines (negb (bool_decide (country = "")))
                  (strings_ToUpper country) (Text <$> Tokens file)))
          = Some (filter (λ r, ZipCode r = code) all)).
  { apply mapM_filter; [|done].
    intros text r ->%recordOf_code. done. }
  assert (Hne : filter (λ r, ZipCode r = code) all ≠ []).
  { intros Hnil. rewrite Hnil in Hsel.
    apply mapM_Some, Forall2_length in Hsel.
    apply list_elem_of_fmap in Hcode as (text & -> & Htext).
    assert (Hin : text ∈ filter (λ t, lineCode t = lineCode text)
                    (acceptedLines (negb (bool_decide (country = "")))
                       (strings_ToUpper country) (Text <$> Tokens file)))
      by by apply list_elem_of_filter.
    destruct (filter _ (acceptedLines _ _ _)); [by apply elem_of_nil in Hin|done]. }
  exists (filter (λ r, ZipCode r = code) all). split_and!; [|done..].
  unfold Lookup. rewrite Hzc, lookup_index_of.
  destruct (filter _ all) as [|r rs]; [done|]. simpl. by destruct (_ <? _)%nat.
Qed.

(** ** Loading *)

(** C4. Wholesale rejection of malformed input: when a scanned line has
    fewer than 12 tab-separated fields, or an accepted line has a
    latitude or longitude that does not parse, the load returns the
    zero value (no index) and an error: the complaint about the first
    offending line, which names the field that does not parse. *)
Theorem malformed_input_rejected path country file text :
  os_Open path = inr file →
  country = "" ∨ String.length country = 2 →
  text ∈ scannedLines (negb (bool_decide (country = "")))
           (strings_ToUpper country) (Text <$> Tokens file) ∧
  length (lineFields text) < 12 ∨
  text ∈ acceptedLines (negb (bool_decide (country = "")))
           (strings_ToUpper country) (Text <$> Tokens file) ∧
  (strconv_ParseFloat (lineLat text) = None ∨
   strconv_ParseFloat (lineLon text) = None) →
  ∃ culprit e,
    culprit ∈ Text <$> Tokens file ∧ rejects strconv_ParseFloat culprit e ∧
    load path country = Return (Zipcodes_zero, Some e).
Proof.
  intros Hopen Hcountry Hbad. unfold loadDataset. rewrite Hopen.
  assert (negb (bool_decide (country = "")) && negb (String.length country =? 2)%nat
          = false) as ->.
  { destruct Hcountry as [->| ->]; [done | by rewrite andb_false_r]. }
  destruct (loop_bad (negb (bool_decide (country = ""))) (strings_ToUpper country)
              (Tokens file) (ErrAtEOF file) false ∅) as (culprit & e & ? & ? & Hrun).
  - apply Exists_exists. exists text.
    destruct Hbad as [[? ?]|[Hacc Hparse]]; [split; [done | left; lia]|].
    split; [by apply accepted_scanned | right].
    split.
    + by eapply accepted_wanted.
    + unfold recordOf. destruct Hparse as [-> | Hlon]; [done|].
      destruct (strconv_ParseFloat (lineLat text)); [|done]. simpl. by rewrite Hlon.
  - exists culprit, e. by rewrite Hrun.
Qed.

(** C5. Country filter contract: a filter that is supplied and is not
    exactly 2 bytes long makes the load return the zero value and the
    configuration error; otherwise every record of the returned index
    was built from a source line whose country field (field 0) equals
    the upper-cased filter. *)
Theorem country_filter_contract path country :
  country ≠ "" →
  (String.length country ≠ 2 →
     load path country = Return (Zipcodes_zero, Some errCountry)) ∧
  (∀ zc code recs r,
     load path country = Return (zc, None) →
     DatasetList zc !! code = Some recs → r ∈ recs →
     ∃ file text,
       os_Open path = inr file ∧ text ∈ Text <$> Tokens file ∧
       lineCountry text = strings_ToUpper country ∧ built text = Some r).
Proof.
  intros Hsupplied. split.
  - intros Hlen. unfold loadDataset.
    rewrite bool_decide_eq_false_2 by done.
    by destruct (Nat.eqb_spec (String.length country) 2).
  - intros zc code recs r (file & all & Hopen & Hall & Hzc)%load_ok Hcode Hr.
    rewrite Hzc, lookup_index_of in Hcode.
    assert (r ∈ all) as Hin.
    { destruct (filter _ all) eqn:Hf; [done|]. simplify_eq.
      rewrite <- Hf in Hr. by apply list_elem_of_filter in Hr as [_ ?]. }
    destruct (mapM_elem_of _ _ _ _ Hall Hin) as (text & Htext & Hbuilt).
    exists file, text. split_and!; [done| |  |done].
    + by eapply accepted_in_source.
    + apply accepted_wanted in Htext.
      unfold wanted in Htext. rewrite bool_decide_eq_false_2 in Htext by done.
      by apply bool_decide_eq_true in Htext.
Qed.

(** C6. Early-exit heuristic: under a country filter, the lines that do
    not match are passed over until a line matches; the matching lines
    that follow are accepted; the first line after them that does not
    match ends the scan. Whatever comes after it is not looked at, well
    formed or not, matching or not: the load returns the index of the
    accepted run, and no error unless the scanner already holds one. *)
Theorem early_exit_truncates path country file skipped run stopper remaining recs :
  country ≠ "" → String.length country = 2 →
  os_Open path = inr file →
  Tokens file = skipped ++ run ++ stopper :: remaining →
  Forall (λ t, length (lineFields (Text t)) = 12 ∧
               lineCountry (Text t) ≠ strings_ToUpper country) skipped →
  run ≠ [] →
  Forall (λ t, length (lineFields (Text t)) = 12 ∧
               lineCountry (Text t) = strings_ToUpper country) run →
  mapM built (Text <$> run) = Some recs →
  length (lineFields (Text stopper)) = 12 →
  lineCountry (Text stopper) ≠ strings_ToUpper country →
  load path country =
    Return (afterLoop (foldl addRecord ∅ recs) (ErrSoFar stopper)).
Proof.
  intros Hsupplied Hlen Hopen Htoks Hskipped Hne Hrun Hrecs H12 Hstop.
  unfold loadDataset.
  rewrite bool_decide_eq_false_2, Hlen, Hopen, Htoks by done. simpl. f_equal.
  rewrite loop_skip by done.
  rewrite (loop_run _ _ _ _ _ _ recs) by done.
  destruct run; [done|]. simpl.
  rewrite body_unwanted; [done..|].
  unfold wanted. simpl. by apply bool_decide_eq_false.
Qed.

(** A read failure that the scanner reports is returned to the caller. *)
Lemma read_failure_returned path file e :
  os_Open path = inr file → Tokens file = [] → ErrAtEOF file = Some e →
  load path "" = Return (Zipcodes_zero, Some (errRead e)).
Proof. intros Hopen Htoks Herr. unfold loadDataset. by rewrite Hopen, Htoks, Herr. Qed.

(** C8. What the code does when the file cannot be opened: with a valid
    country argument, [log.Fatal] ends the process with status 1 after
    logging the error of [os.Open]; nothing is returned to the caller. *)
Theorem open_failure_exits path country err :
  os_Open path = inl err →
  country = "" ∨ String.length country = 2 →
  load path country = Exit 1 err.
Proof.
  intros Hopen Hcountry. unfold loadDataset. rewrite Hopen.
  destruct Hcountry as [->| ->]; [done | by rewrite andb_false_r].
Qed.

(** C10. Coordinates of lines that fail the filter are never parsed:
    under a country filter, the loop on a line whose country field
    differs from the filter depends on the number of its fields and on
    whether a line was accepted before, and on nothing else. With 12
    fields the line is passed over, or ends the scan once a line was
    accepted, whatever [strconv.ParseFloat] says of its coordinates; with
    another number of fields the load fails. *)
Theorem unwanted_line_not_parsed country text e rest eof inC m :
  lineCountry text ≠ country →
  loop true country ({| Text := text; ErrSoFar := e |} :: rest) eof inC m =
    if bool_decide (length (lineFields text) = 12) then
      if inC then afterLoop m e else loop true country rest eof false m
    else (Zipcodes_zero, Some errFields).
Proof.
  intros Hc. simpl. case_bool_decide as H12.
  - rewrite body_unwanted; [by destruct inC | done |].
    unfold wanted. simpl. by apply bool_decide_eq_false.
  - by rewrite body_fields.
Qed.
End LoaderFacts.

(** ** Binary64 arithmetic

    Facts of IEEE-754 arithmetic that the symmetry of the distance rests
    on, from the specification of the primitive operations. *)

Lemma SFopp_round_aux sx mx ex lx :
  SFopp (binary_round_aux prec emax sx mx ex lx) =
  binary_round_aux prec emax (negb sx) mx ex lx.
Proof.
  unfold binary_round_aux.
  destruct (shr_fexp _ _ _ _ _) as [mrs e'].
  destruct (shr_fexp _ _ _ _ _) as [mrs' e''].
  destruct (shr_m mrs'); [done| |done].
  by destruct (Z.leb _ _).
Qed.

Lemma SFopp_round sx mx ex :
  SFopp (binary_round prec emax sx mx ex) = binary_round prec emax (negb sx) mx ex.
Proof.
  unfold binary_round. destruct (shl_align _ _ _). apply SFopp_round_aux.
Qed.

Lemma float_opp_opp (x : float) : (- - x)%float = x.
Proof.
  apply Prim2SF_inj. rewrite !opp_spec.
  destruct (Prim2SF x) as [[]|[]| |[] ? ?]; done.
Qed.

Lemma float_mul_comm (x y : float) : (x * y)%float = (y * x)%float.
Proof.
  apply Prim2SF_inj. rewrite !mul_spec. unfold SF64mul.
  destruct (Prim2SF x) as [sx|sx| |sx mx ex], (Prim2SF y) as [sy|sy| |sy my ey];
    simpl; rewrite ?(xorb_comm sx sy); try done.
  by rewrite Pos.mul_comm, Z.add_comm.
Qed.

Lemma float_mul_opp_l (x y : float) : (- x * y)%float = (- (x * y))%float.
Proof.
  apply Prim2SF_inj. rewrite opp_spec, !mul_spec, opp_spec. unfold SF64mul.
  destruct (Prim2SF x) as [sx|sx| |sx mx ex], (Prim2SF y) as [sy|sy| |sy my ey];
    simpl; rewrite ?SFopp_round_aux, ?negb_xorb_l; done.
Qed.

Lemma float_mul_opp_opp (x : float) : (- x * - x)%float = (x * x)%float.
Proof.
  by rewrite float_mul_opp_l, (float_mul_comm x), float_mul_opp_l, float_opp_opp.
Qed.

Lemma float_div_opp_l (x y : float) : (- x / y)%float = (- (x / y))%float.
Proof.
  apply Prim2SF_inj. rewrite opp_spec, !div_spec, opp_spec. unfold SF64div.
  destruct (Prim2SF x) as [sx|sx| |sx mx ex], (Prim2SF y) as [sy|sy| |sy my ey];
    simpl; rewrite ?negb_xorb_l; try done.
  destruct (SFdiv_core_binary _ _ _ _ _ _) as [[mz ez] lz].
  by rewrite SFopp_round_aux, negb_xorb_l.
Qed.

(** Swapping the operands of a subtraction negates the difference; two
    equal operands give [+0] both ways. *)
Lemma float_sub_swap (x y : float) :
  (x - y)%float = (- (y - x))%float ∨ (x - y)%float = (y - x)%float.
Proof.
  assert (Prim2SF (x - y) = SFopp (Prim2SF (y - x)) ∨ Prim2SF (x - y) = Prim2SF (y - x))
    as [H|H]; [|left; apply Prim2SF_inj; by rewrite opp_spec|right; by apply Prim2SF_inj].
  rewrite !sub_spec. unfold SF64sub.
  destruct (Prim2SF x) as [sx|sx| |sx mx ex], (Prim2SF y) as [sy|sy| |sy my ey];
    simpl; try (by left); try (by right);
    try (destruct sx, sy; simpl; by (left + right)).
  rewrite (Z.min_comm ey ex).
  set (a := cond_Zopp sx _). set (b := cond_Zopp sy _).
  replace (b - a)%Z with (- (a - b))%Z by lia.
  destruct (a - b)%Z as [|p|p]; simpl; [by right| |]; left; by rewrite SFopp_round.
Qed.

(** NaN absorbs: a sum or a difference with a NaN operand is NaN. *)
Lemma float_sub_nan_r (x : float) : (x - nan)%float = nan.
Proof.
  apply Prim2SF_inj. rewrite sub_spec. change (Prim2SF nan) with S754_nan.
  by destruct (Prim2SF x).
Qed.

Lemma float_sub_nan_l (x : float) : (nan - x)%float = nan.
Proof.
  apply Prim2SF_inj. rewrite sub_spec. change (Prim2SF nan) with S754_nan. done.
Qed.

Lemma float_add_nan_l (x : float) : (nan + x)%float = nan.
Proof.
  apply Prim2SF_inj. rewrite add_spec. change (Prim2SF nan) with S754_nan. done.
Qed.

(** Go's [==] on two equal values fails exactly on NaN. *)
Lemma float_eqb_same (x : float) : (x =? x)%float = negb (is_nan x).
Proof. unfold is_nan. by rewrite negb_involutive. Qed.

(** ** Distances and the radius search *)

Section GeoFacts.
Variables math_Sin math_Cos math_Sqrt math_Round : float → float.
Variables math_Atan2 math_Pow : float → float → float.

Local Abbreviation distance :=
  (DistanceBetweenPoints math_Sin math_Cos math_Sqrt math_Round math_Atan2 math_Pow).
Local Abbreviation isNear :=
  (near math_Sin math_Cos math_Sqrt math_Round math_Atan2 math_Pow).
Local Abbreviation find :=
  (FindZipcodesWithinRadius math_Sin math_Cos math_Sqrt math_Round
     math_Atan2 math_Pow).
Local Abbreviation formula := (haversine math_Sin math_Cos math_Sqrt math_Atan2 math_Pow).

Lemma collectWithin_spec origin maxRadius earthRadius elm : ∀ zipcodeList,
  collectWithin math_Sin math_Cos math_Sqrt math_Round math_Atan2 math_Pow
    origin maxRadius earthRadius zipcodeList elm =
  zipcodeList ++
    (ZipCode <$> filter (λ r, isNear origin maxRadius earthRadius r = true) elm).
Proof.
  unfold collectWithin.
  induction elm as [|r elm IH]; intros acc; simpl; [by rewrite app_nil_r|].
  rewrite IH, filter_cons.
  destruct (decide (isNear origin maxRadius earthRadius r = true)) as [Hn|Hn];
    unfold near in Hn;
    destruct (negb _); simpl in Hn |- *;
    try destruct (_ <? _)%float; try done.
  by rewrite <- app_assoc.
Qed.

Lemma visiting_spec origin maxRadius earthRadius visit : ∀ zipcodeList,
  foldl (λ zipcodeList (entry : string * ZipCodeLocations),
           collectWithin math_Sin math_Cos math_Sqrt math_Round math_Atan2 math_Pow
             origin maxRadius earthRadius zipcodeList entry.2)
        zipcodeList visit =
  zipcodeList ++
    (ZipCode <$> filter (λ r, isNear origin maxRadius earthRadius r = true)
                   (mjoin (snd <$> visit))).
Proof.
  induction visit as [|[k elm] visit IH]; intros acc; simpl; [by rewrite app_nil_r|].
  rewrite IH, collectWithin_spec, filter_app, fmap_app. by rewrite <- app_assoc.
Qed.

(** Whatever the order in which the map is visited, the search reports
    the codes of the records that are near, once per record, and never
    the code of the origin. *)
Lemma find_spec zc origin maxRadius earthRadius out :
  find zc origin maxRadius earthRadius out →
  out ≡ₚ ZipCode <$> filter (λ r, isNear origin maxRadius earthRadius r = true)
                       (allRecords zc) ∧
  ZipCode origin ∉ out.
Proof.
  intros (visit & Hvisit & ->). unfold FindZipcodesWithinRadius_visiting.
  rewrite visiting_spec. simpl. split.
  - unfold allRecords. by rewrite Hvisit.
  - intros (r & Hcode & [Hnear _]%list_elem_of_filter)%list_elem_of_fmap.
    unfold near in Hnear. apply andb_true_iff in Hnear as [Hne _].
    apply negb_true_iff, bool_decide_eq_false in Hne. by apply Hne.
Qed.

Lemma find_total zc origin maxRadius earthRadius :
  ∃ out, find zc origin maxRadius earthRadius out.
Proof. eexists. by exists (map_to_list (DatasetList zc)). Qed.

(** C3. Radius search: a call of [GetZipcodesWithinKmRadius] or
    [GetZipcodesWithinMlRadius] returns, and what it returns is, up to
    the order in which the map is visited, the codes of all records of
    the index (every key, every record of a key) whose code differs from
    the origin's and whose distance from the origin is strictly below
    the radius, one entry per record. The code of the origin is never
    in the result. *)
Theorem radius_search zc origin radius :
  ((∃ out, GetZipcodesWithinKmRadius math_Sin math_Cos math_Sqrt math_Round
             math_Atan2 math_Pow zc origin radius out) ∧
   ∀ out, GetZipcodesWithinKmRadius math_Sin math_Cos math_Sqrt math_Round
            math_Atan2 math_Pow zc origin radius out →
     out ≡ₚ ZipCode <$> filter (λ r, isNear origin radius 6371 r = true)
                          (allRecords zc) ∧
     ZipCode origin ∉ out) ∧
  ((∃ out, GetZipcodesWithinMlRadius math_Sin math_Cos math_Sqrt math_Round
             math_Atan2 math_Pow zc origin radius out) ∧
   ∀ out, GetZipcodesWithinMlRadius math_Sin math_Cos math_Sqrt math_Round
            math_Atan2 math_Pow zc origin radius out →
     out ≡ₚ ZipCode <$> filter (λ r, isNear origin radius 3958 r = true)
                          (allRecords zc) ∧
     ZipCode origin ∉ out).
Proof.
  split; (split; [apply find_total | intros out; apply find_spec]).
Qed.

(** C7. Distance computation: every distance operation is the haversine
    formula of the specification on the two points, with radius 6371
    for kilometres and 3958 for miles, rounded to two decimals as
    [math.Round (value * 100) / 100]. *)
Theorem distance_is_haversine (A B : ZipCodeLocation)
    (lat1 lon1 lat2 lon2 latitude longitude radius : float) :
  distance lat1 lon1 lat2 lon2 radius =
    round2 math_Round (formula (lat1, lon1) (lat2, lon2) radius) ∧
  DistanceInKm math_Sin math_Cos math_Sqrt math_Round math_Atan2 math_Pow A B =
    round2 math_Round (formula (Lat A, Lon A) (Lat B, Lon B) 6371) ∧
  DistanceInMiles math_Sin math_Cos math_Sqrt math_Round math_Atan2 math_Pow A B =
    round2 math_Round (formula (Lat A, Lon A) (Lat B, Lon B) 3958) ∧
  DistanceInKmToZipCode math_Sin math_Cos math_Sqrt math_Round math_Atan2 math_Pow
      A latitude longitude =
    round2 math_Round (formula (Lat A, Lon A) (latitude, longitude) 6371) ∧
  DistanceInMilToZipCode math_Sin math_Cos math_Sqrt math_Round math_Atan2 math_Pow
      A latitude longitude =
    round2 math_Round (formula (Lat A, Lon A) (latitude, longitude) 3958).
Proof. split_and!; reflexivity. Qed.

Section Symmetry.
(** What the symmetry asks of Go's [math] package: the sine is odd,
    and a square does not see the sign. *)
Hypothesis math_Sin_odd : ∀ x, math_Sin (- x) = (- math_Sin x)%float.
Hypothesis math_Pow_even : ∀ x, math_Pow (- x) 2 = math_Pow x 2.

Lemma hsin_swap x y :
  hsin math_Sin math_Pow (x - y) = hsin math_Sin math_Pow (y - x).
Proof.
  destruct (float_sub_swap x y) as [-> | ->]; [|done].
  unfold hsin. by rewrite float_div_opp_l, math_Sin_odd, math_Pow_even.
Qed.

Lemma distance_swap lat1 lon1 lat2 lon2 radius :
  distance lat1 lon1 lat2 lon2 radius = distance lat2 lon2 lat1 lon1 radius.
Proof.
  unfold DistanceBetweenPoints.
  rewrite (hsin_swap (degreesToRadians lat2)), (hsin_swap (degreesToRadians lon2)).
  by rewrite (float_mul_comm (math_Cos (degreesToRadians lat1))).
Qed.

(** C9, as amended. Distance symmetry: the distance from A to B and the
    distance from B to A are the same binary64 value, in kilometres and
    in miles; compared with Go's [==] they are equal exactly when that
    value is not NaN. *)
Theorem distance_eq_unless_nan (A B : ZipCodeLocation) :
  (DistanceInKm math_Sin math_Cos math_Sqrt math_Round math_Atan2 math_Pow A B =
   DistanceInKm math_Sin math_Cos math_Sqrt math_Round math_Atan2 math_Pow B A ∧
   (DistanceInKm math_Sin math_Cos math_Sqrt math_Round math_Atan2 math_Pow A B =?
    DistanceInKm math_Sin math_Cos math_Sqrt math_Round math_Atan2 math_Pow B A)%float
   = negb (is_nan (DistanceInKm math_Sin math_Cos math_Sqrt math_Round
                     math_Atan2 math_Pow A B))) ∧
  (DistanceInMiles math_Sin math_Cos math_Sqrt math_Round math_Atan2 math_Pow A B =
   DistanceInMiles math_Sin math_Cos math_Sqrt math_Round math_Atan2 math_Pow B A ∧
   (DistanceInMiles math_Sin math_Cos math_Sqrt math_Round math_Atan2 math_Pow A B =?
    DistanceInMiles math_Sin math_Cos math_Sqrt math_Round math_Atan2 math_Pow B A)%float
   = negb (is_nan (DistanceInMiles math_Sin math_Cos math_Sqrt math_Round
                     math_Atan2 math_Pow A B))).
Proof.
  unfold DistanceInKm, DistanceInMiles, CalculateDistance.
  split; (split; [apply distance_swap|]);
    rewrite (distance_swap (Lat B)); apply float_eqb_same.
Qed.
End Symmetry.

Section NotANumber.
(** Go's [math] functions return NaN on NaN. *)
Hypothesis math_Sin_nan : math_Sin nan = nan.
Hypothesis math_Pow_nan : math_Pow nan 2 = nan.
Hypothesis math_Sqrt_nan : math_Sqrt nan = nan.
Hypothesis math_Atan2_nan : math_Atan2 nan nan = nan.
Hypothesis math_Round_nan : math_Round nan = nan.

(** A NaN latitude, which the loader accepts when [strconv.ParseFloat]
    does, makes every distance from or to the record NaN. *)
Lemma nan_latitude_distance lat1 lon1 lat2 lon2 :
  lat1 = nan ∨ lat2 = nan →
  distance lat1 lon1 lat2 lon2 earthRadiusKm = nan ∧
  distance lat1 lon1 lat2 lon2 earthRadiusMi = nan.
Proof.
  unfold DistanceBetweenPoints, hsin.
  intros [-> | ->]; change (degreesToRadians nan) with nan;
    rewrite ?float_sub_nan_r, ?float_sub_nan_l;
    change (nan / 2)%float with nan;
    rewrite math_Sin_nan, math_Pow_nan, float_add_nan_l;
    change (1 - nan)%float with nan;
    rewrite math_Sqrt_nan, math_Atan2_nan;
    change (2 * nan * earthRadiusKm * 100)%float with nan;
    change (2 * nan * earthRadiusMi * 100)%float with nan;
    by rewrite math_Round_nan.
Qed.
End NotANumber.
End GeoFacts.

(** ** The sample environment at work *)

Ltac by_evaluation :=
  match goal with
  | |- ?P => apply (bool_decide_unpack P); vm_compute; exact I
  end.

Lemma Sample_Sin_odd (x : float) : Sample.Sin (- x) = (- Sample.Sin x)%float.
Proof. unfold Sample.Sin. by rewrite float_mul_opp_opp, float_mul_opp_l. Qed.

Lemma Sample_Pow_even (x : float) : Sample.Pow (- x) 2 = Sample.Pow x 2.
Proof. unfold Sample.Pow. by rewrite float_mul_opp_opp. Qed.

(** The cases of the package's tests, on the sample files. *)

Example load_wrong_length :
  Sample.load "wrong_length.txt" "" =
    Return (Zipcodes_zero, Some "zipcodes: file line does not have 12 fields").
Proof. vm_compute. reflexivity. Qed.

Example load_wrong_lat :
  Sample.load "wrong_lat.txt" "" =
    Return (Zipcodes_zero, Some "zipcodes: error while converting WRONG to Latitude").
Proof. vm_compute. reflexivity. Qed.

Example load_wrong_lon :
  Sample.load "wrong_lon.txt" "" =
    Return (Zipcodes_zero, Some "zipcodes: error while converting WRONG to Longitude").
Proof. vm_compute. reflexivity. Qed.

Example lookup_missing : Lookup Sample.valid "XYZ" = ([], Some ErrZipcodeNotFound).
Proof. vm_compute. reflexivity. Qed.

Example lookup_first :
  head (Lookup Sample.valid "01945").1 = Some Sample.origin.
Proof. vm_compute. reflexivity. Qed.

Example filter_is_upper_cased :
  ∃ zc, Sample.load "valid.txt" "us" = Return (zc, None) ∧
        size (DatasetList zc) = 2 ∧
        (Lookup zc "10001").2 = None ∧ (Lookup zc "12201").2 = None ∧
        Lookup zc "01945" = ([], Some ErrZipcodeNotFound).
Proof. eexists. split_and!; vm_compute; reflexivity. Qed.

(** Near the origin the stand-ins reproduce the figures of the README:
    1.11 km and 0.69 miles for one hundredth of a degree of latitude. *)
Example distance_to_nearby_point :
  Some (DistanceInKmToZipCode Sample.Sin Sample.Cos Sample.Sqrt Sample.Round
          Sample.Atan2 Sample.Pow Sample.origin
          (default 0%float (Sample.ParseFloat "51.4267"))
          (default 0%float (Sample.ParseFloat "13.9333")))
    = Sample.ParseFloat "1.11" ∧
  Some (DistanceInMilToZipCode Sample.Sin Sample.Cos Sample.Sqrt Sample.Round
          Sample.Atan2 Sample.Pow Sample.origin
          (default 0%float (Sample.ParseFloat "51.4267"))
          (default 0%float (Sample.ParseFloat "13.9333")))
    = Sample.ParseFloat "0.69".
Proof. split; vm_compute; reflexivity. Qed.

Lemma lookup_trichotomy_witness :
  Lookup Sample.valid "99999" = ([], Some ErrZipcodeNotFound) ∧
  (∃ r, PlaceName r = "Cottbus" ∧ Lookup Sample.valid "03058" = ([r], None)) ∧
  (∃ r1 r2, PlaceName r1 = "Guteborn" ∧ PlaceName r2 = "Ruhland" ∧
            Lookup Sample.valid "01945" = ([r1; r2], Some ErrMultipleLatLon)).
Proof.
  split_and!.
  - apply (lookup_trichotomy Sample.valid "99999"). vm_compute. reflexivity.
  - eexists. split; [|apply (lookup_trichotomy Sample.valid "03058")];
      [|vm_compute; reflexivity]. reflexivity.
  - do 2 eexists. split_and!;
      [| |apply (lookup_trichotomy Sample.valid "01945"); [vm_compute; reflexivity|]].
    + reflexivity.
    + reflexivity.
    + simpl. lia.
Defined.

Lemma round_trip_lookup_witness :
  Sample.load "valid.txt" "" = Return (Sample.valid, None) ∧
  ∃ file,
    Sample.os_Open "valid.txt" = inr file ∧
    ∀ code,
      code ∈ lineCode <$> acceptedLines false (Sample.ToUpper "") (Text <$> Tokens file) →
      ∃ recs,
        Lookup Sample.valid code =
          (recs, if (1 <? length recs)%nat then Some ErrMultipleLatLon else None) ∧
        recs ≠ [] ∧
        mapM (recordOf Sample.ParseFloat)
          (filter (λ text, lineCode text = code)
             (acceptedLines false (Sample.ToUpper "") (Text <$> Tokens file)))
        = Some recs.
Proof.
  split; [vm_compute; reflexivity|].
  apply (round_trip_lookup Sample.os_Open Sample.ParseFloat Sample.ToUpper
           "valid.txt" "" Sample.valid).
  vm_compute. reflexivity.
Defined.

Lemma radius_search_witness :
  GetZipcodesWithinKmRadius Sample.Sin Sample.Cos Sample.Sqrt Sample.Round
    Sample.Atan2 Sample.Pow Sample.valid Sample.origin 50 ["03058"; "01946"] ∧
  ["03058"; "01946"] ≡ₚ
    ZipCode <$> filter (λ r, near Sample.Sin Sample.Cos Sample.Sqrt Sample.Round
                               Sample.Atan2 Sample.Pow Sample.origin 50 6371 r = true)
                  (allRecords Sample.valid) ∧
  ZipCode Sample.origin ∉ ["03058"; "01946"].
Proof.
  assert (Hcall : GetZipcodesWithinKmRadius Sample.Sin Sample.Cos Sample.Sqrt
                    Sample.Round Sample.Atan2 Sample.Pow Sample.valid Sample.origin 50
                    ["03058"; "01946"]).
  { exists (map_to_list (DatasetList Sample.valid)). split; [reflexivity|].
    vm_compute. reflexivity. }
  split; [exact Hcall|].
  exact (proj2 (proj1 (radius_search Sample.Sin Sample.Cos Sample.Sqrt Sample.Round
                         Sample.Atan2 Sample.Pow Sample.valid Sample.origin 50))
           _ Hcall).
Defined.

Lemma malformed_input_rejected_witness :
  (∃ culprit e,
     culprit ∈ Text <$> [Sample.guteborn; Sample.short; Sample.cottbus] ∧
     rejects Sample.ParseFloat culprit e ∧
     Sample.load "wrong_length.txt" "" = Return (Zipcodes_zero, Some e)) ∧
  (∃ culprit e,
     culprit ∈ Text <$> [Sample.guteborn; Sample.wrong_lon; Sample.cottbus] ∧
     rejects Sample.ParseFloat culprit e ∧
     Sample.load "wrong_lon.txt" "de" = Return (Zipcodes_zero, Some e)).
Proof.
  split.
  - apply (malformed_input_rejected Sample.os_Open Sample.ParseFloat Sample.ToUpper
             "wrong_length.txt" ""
             (Sample.file [Sample.guteborn; Sample.short; Sample.cottbus])
             (Text Sample.short)).
    + vm_compute. reflexivity.
    + left. reflexivity.
    + left. split; [by_evaluation | vm_compute; lia].
  - apply (malformed_input_rejected Sample.os_Open Sample.ParseFloat Sample.ToUpper
             "wrong_lon.txt" "de"
             (Sample.file [Sample.guteborn; Sample.wrong_lon; Sample.cottbus])
             (Text Sample.wrong_lon)).
    + vm_compute. reflexivity.
    + right. reflexivity.
    + right. split; [by_evaluation | right; vm_compute; reflexivity].
Defined.

Lemma country_filter_contract_witness :
  Sample.load "valid.txt" "usa" = Return (Zipcodes_zero, Some errCountry) ∧
  ∀ zc code recs r,
    Sample.load "valid.txt" "us" = Return (zc, None) →
    DatasetList zc !! code = Some recs → r ∈ recs →
    ∃ file text,
      Sample.os_Open "valid.txt" = inr file ∧ text ∈ Text <$> Tokens file ∧
      lineCountry text = "US" ∧ recordOf Sample.ParseFloat text = Some r.
Proof.
  split.
  - apply (country_filter_contract Sample.os_Open Sample.ParseFloat Sample.ToUpper
             "valid.txt" "usa"); [discriminate | simpl; lia].
  - apply (country_filter_contract Sample.os_Open Sample.ParseFloat Sample.ToUpper
             "valid.txt" "us"). discriminate.
Defined.

Lemma early_exit_truncates_witness :
  ∃ recs,
    mapM (recordOf Sample.ParseFloat) [Text Sample.newyork] = Some recs ∧
    Sample.load "ungrouped.txt" "us" =
      Return ({| DatasetList := foldl addRecord ∅ recs |}, None) ∧
    lineCountry (Text Sample.albany) = "US" ∧
    Lookup {| DatasetList := foldl addRecord ∅ recs |} (lineCode (Text Sample.albany))
      = ([], Some ErrZipcodeNotFound).
Proof.
  eexists. split; [vm_compute; reflexivity|].
  split; [|split; vm_compute; reflexivity].
  apply (early_exit_truncates Sample.os_Open Sample.ParseFloat Sample.ToUpper
           "ungrouped.txt" "us"
           (Sample.file [Sample.ottawa_wrong; Sample.newyork; Sample.guteborn;
                         Sample.albany; Sample.short])
           [Sample.ottawa_wrong] [Sample.newyork] Sample.guteborn
           [Sample.albany; Sample.short]).
  - discriminate.
  - reflexivity.
  - vm_compute. reflexivity.
  - reflexivity.
  - by_evaluation.
  - discriminate.
  - by_evaluation.
  - vm_compute. reflexivity.
  - vm_compute. reflexivity.
  - vm_compute. discriminate.
Defined.

Lemma open_failure_exits_witness :
  Sample.load "missing.txt" "" =
    Exit 1 "open missing.txt: no such file or directory" ∧
  Sample.load "missing.txt" "de" =
    Exit 1 "open missing.txt: no such file or directory".
Proof.
  split.
  - apply (open_failure_exits Sample.os_Open Sample.ParseFloat Sample.ToUpper
             "missing.txt" ""); [vm_compute; reflexivity | left; reflexivity].
  - apply (open_failure_exits Sample.os_Open Sample.ParseFloat Sample.ToUpper
             "missing.txt" "de"); [vm_compute; reflexivity | right; reflexivity].
Defined.

Lemma distance_eq_unless_nan_witness :
  DistanceInKm Sample.Sin Sample.Cos Sample.Sqrt Sample.Round Sample.Atan2
    Sample.Pow Sample.origin Sample.other =
  DistanceInKm Sample.Sin Sample.Cos Sample.Sqrt Sample.Round Sample.Atan2
    Sample.Pow Sample.other Sample.origin ∧
  (DistanceInKm Sample.Sin Sample.Cos Sample.Sqrt Sample.Round Sample.Atan2
     Sample.Pow Sample.origin Sample.other =?
   DistanceInKm Sample.Sin Sample.Cos Sample.Sqrt Sample.Round Sample.Atan2
     Sample.Pow Sample.other Sample.origin)%float
  = negb (is_nan (DistanceInKm Sample.Sin Sample.Cos Sample.Sqrt Sample.Round
                    Sample.Atan2 Sample.Pow Sample.origin Sample.other)).
Proof.
  exact (proj1 (distance_eq_unless_nan Sample.Sin Sample.Cos Sample.Sqrt Sample.Round
                  Sample.Atan2 Sample.Pow Sample_Sin_odd Sample_Pow_even
                  Sample.origin Sample.other)).
Defined.

(** Where [==] fails: a record with a NaN latitude, in both units, and
    two records with finite coordinates on opposite sides of the globe,
    where [a] exceeds 1 and the square root of [1 - a] is NaN. Both
    directions are NaN each time. *)
Lemma distance_eq_fails_on_nan :
  (DistanceInKm Sample.Sin Sample.Cos Sample.Sqrt Sample.Round Sample.Atan2
     Sample.Pow Sample.nowhere Sample.origin =?
   DistanceInKm Sample.Sin Sample.Cos Sample.Sqrt Sample.Round Sample.Atan2
     Sample.Pow Sample.origin Sample.nowhere)%float = false ∧
  (DistanceInMiles Sample.Sin Sample.Cos Sample.Sqrt Sample.Round Sample.Atan2
     Sample.Pow Sample.nowhere Sample.origin =?
   DistanceInMiles Sample.Sin Sample.Cos Sample.Sqrt Sample.Round Sample.Atan2
     Sample.Pow Sample.origin Sample.nowhere)%float = false ∧
  (DistanceInKm Sample.Sin Sample.Cos Sample.Sqrt Sample.Round Sample.Atan2
     Sample.Pow Sample.west Sample.east =?
   DistanceInKm Sample.Sin Sample.Cos Sample.Sqrt Sample.Round Sample.Atan2
     Sample.Pow Sample.east Sample.west)%float = false.
Proof. split_and!; vm_compute; reflexivity. Qed.

Lemma unwanted_line_not_parsed_witness :
  Sample.ParseFloat (lineLat (Text Sample.ottawa_wrong)) = None ∧
  scanLoop Sample.ParseFloat true "US" [Sample.ottawa_wrong; Sample.newyork] None false ∅
  = scanLoop Sample.ParseFloat true "US" [Sample.newyork] None false ∅.
Proof.
  split; [vm_compute; reflexivity|].
  apply (unwanted_line_not_parsed Sample.ParseFloat "US" (Text Sample.ottawa_wrong)
           None [Sample.newyork] None false ∅).
  vm_compute. discriminate.
Defined.

(** * Further properties of the loader *)

Lemma filter_nil_iff {A} (P : A → Prop) `{∀ x, Decision (P x)} (l : list A) :
  filter P l = [] ↔ ∀ x, x ∈ l → ¬ P x.
Proof.
  induction l as [|x l IH]; [by split; [intros _ ? ?%elem_of_nil|]|].
  rewrite filter_cons. split.
  - intros Hnil y Hy. destruct (decide (P x)); [done|].
    apply elem_of_cons in Hy as [->|Hy]; [done | by apply IH].
  - intros Hall. destruct (decide (P x)) as [HP|_].
    + by destruct (Hall x (list_elem_of_here _ _)).
    + apply IH. intros y Hy. apply Hall. by right.
Qed.

Lemma allRecords_addRecord (m : gmap string ZipCodeLocations) r :
  mjoin (snd <$> map_to_list (addRecord m r)) ≡ₚ mjoin (snd <$> map_to_list m) ++ [r].
Proof.
  unfold addRecord. destruct (m !! ZipCode r) as [l|] eqn:Hk; simpl.
  - rewrite <- insert_delete_eq.
    rewrite map_to_list_insert by apply lookup_delete_eq.
    rewrite <- (map_to_list_delete m _ _ Hk). simpl.
    rewrite <- !app_assoc. f_equiv. apply Permutation_app_comm.
  - rewrite map_to_list_insert by done. simpl.
    apply (Permutation_app_comm [r]).
Qed.

(** Loading neither loses nor repeats a record. *)
Lemma allRecords_foldl recs : ∀ m : gmap string ZipCodeLocations,
  mjoin (snd <$> map_to_list (foldl addRecord m recs))
  ≡ₚ mjoin (snd <$> map_to_list m) ++ recs.
Proof.
  induction recs as [|r recs IH]; intros m; simpl; [by rewrite app_nil_r|].
  by rewrite IH, allRecords_addRecord, <- app_assoc.
Qed.

Lemma codes_of_built pf lines recs :
  mapM (recordOf pf) lines = Some recs → ZipCode <$> recs = lineCode <$> lines.
Proof.
  rewrite mapM_Some. induction 1 as [|text r lines recs Hr _ IH]; [done|].
  rewrite !fmap_cons, IH. f_equal. exact (recordOf_code _ _ _ Hr).
Qed.

(** Every key of an index built from records holds a non-empty sequence
    of records that carry the key as their code. *)
Lemma index_wellformed recs k zipcodes :
  foldl addRecord ∅ recs !! k = Some zipcodes →
  zipcodes ≠ [] ∧ Forall (λ r, ZipCode r = k) zipcodes.
Proof.
  rewrite lookup_index_of. intros H.
  destruct (filter _ recs) as [|r rs] eqn:Hf; [done|]. simplify_eq.
  split; [done|]. rewrite <- Hf. apply Forall_forall.
  by intros x [? _]%list_elem_of_filter.
Qed.

Lemma takeWhile_sublist {A} (p : A → bool) (l : list A) : takeWhile p l `sublist_of` l.
Proof.
  rewrite <- (takeWhile_dropWhile p l) at 2. by apply sublist_inserts_r.
Qed.

Lemma dropWhile_sublist {A} (p : A → bool) (l : list A) : dropWhile p l `sublist_of` l.
Proof.
  rewrite <- (takeWhile_dropWhile p l) at 2. by apply sublist_inserts_l.
Qed.

Lemma filter_sublist_mono {A} (P : A → Prop) `{∀ x, Decision (P x)} (l k : list A) :
  l `sublist_of` k → filter P l `sublist_of` filter P k.
Proof.
  induction 1 as [|x l k _ IH|x l k _ IH]; [done| |]; rewrite ?filter_cons.
  - destruct (decide (P x)); [by constructor | done].
  - destruct (decide (P x)); [by constructor | done].
Qed.

Lemma mapM_sublist {A B} (f : A → option B) (l l' : list A) (k : list B) :
  mapM f l = Some k → l' `sublist_of` l →
  ∃ k', mapM f l' = Some k' ∧ k' `sublist_of` k.
Proof.
  rewrite mapM_Some. intros Hlk Hsub. revert k Hlk.
  induction Hsub as [|x l' l _ IH|x l' l _ IH]; intros k Hlk.
  - exists []. split; [done | apply sublist_nil_l].
  - apply Forall2_cons_inv_l in Hlk as (y & k0 & Hy & Hk0 & ->).
    destruct (IH _ Hk0) as (k' & Hk' & Hsub').
    exists (y :: k'). split; [|by constructor].
    apply mapM_Some. constructor; [done | by apply mapM_Some].
  - apply Forall2_cons_inv_l in Hlk as (y & k0 & Hy & Hk0 & ->).
    destruct (IH _ Hk0) as (k' & Hk' & Hsub').
    exists k'. split; [done | by constructor].
Qed.

Lemma accepted_sublist started want c lines :
  acceptedFrom started want c lines `sublist_of` lines.
Proof.
  unfold acceptedFrom. etrans; [apply takeWhile_sublist|].
  destruct started; [done | apply dropWhile_sublist].
Qed.

Lemma scannedFrom_all started c lines : scannedFrom started false c lines = lines.
Proof.
  unfold scannedFrom, wanted. simpl.
  assert (Htake : ∀ l : list string, takeWhile (λ _, true) l = l)
    by (induction l as [|? ? IH]; simpl; [done | by rewrite IH]).
  assert (Hdrop : ∀ l : list string, dropWhile (λ _, true) l = [])
    by (induction l; done).
  assert (Hnone : ∀ l : list string, takeWhile (λ _, negb true) l = [])
    by (intros [|? ?]; done).
  assert (Hkeep : ∀ l : list string, dropWhile (λ _, negb true) l = l)
    by (intros [|? ?]; done).
  destruct started; rewrite ?Hnone, ?Hkeep, Htake, Hdrop; simpl; by rewrite app_nil_r.
Qed.

Lemma takeWhile_app_all {A} (p : A → bool) (l k : list A) :
  Forall (λ x, p x = true) l → takeWhile p (l ++ k) = l ++ takeWhile p k.
Proof. induction 1 as [|x l Hx _ IH]; simpl; [done|]. by rewrite Hx, IH. Qed.

Lemma dropWhile_app_all {A} (p : A → bool) (l k : list A) :
  Forall (λ x, p x = true) l → dropWhile p (l ++ k) = dropWhile p k.
Proof. induction 1 as [|x l Hx _ IH]; simpl; [done|]. by rewrite Hx. Qed.

Lemma takeWhile_none {A} (p : A → bool) (l : list A) :
  Forall (λ x, p x = false) l → takeWhile p l = [].
Proof. destruct 1 as [|x l Hx _]; simpl; [done|]. by rewrite Hx. Qed.

Lemma filter_all {A} (P : A → Prop) `{∀ x, Decision (P x)} (l : list A) :
  Forall P l → filter P l = l.
Proof.
  induction 1 as [|x l Hx _ IH]; [done|]. by rewrite filter_cons_True, IH.
Qed.

(** On lines grouped by country, passing over, accepting and stopping
    selects the lines of the country, like a filter over all lines. *)
Lemma accepted_grouped c (pre run post : list string) :
  Forall (λ text, lineCountry text ≠ c) pre →
  Forall (λ text, lineCountry text = c) run →
  Forall (λ text, lineCountry text ≠ c) post →
  acceptedLines true c (pre ++ run ++ post) =
    filter (λ text, lineCountry text = c) (pre ++ run ++ post).
Proof.
  intros Hpre Hrun Hpost.
  assert (Hno : ∀ l, Forall (λ text, lineCountry text ≠ c) l →
            filter (λ text, lineCountry text = c) l = []).
  { intros l Hl. apply filter_nil_iff. intros x Hx.
    by apply (proj1 (Forall_forall _ _) Hl). }
  rewrite !filter_app, (Hno pre), (Hno post), filter_all by done.
  simpl. rewrite app_nil_r.
  assert (Hout : ∀ l, Forall (λ text, lineCountry text ≠ c) l →
            Forall (λ text, wanted true c text = false) l ∧
            Forall (λ text, negb (wanted true c text) = true) l).
  { intros l Hl. split; (eapply Forall_impl; [exact Hl|]); intros text Ht;
      unfold wanted; simpl; by rewrite bool_decide_eq_false_2. }
  assert (Hin : Forall (λ text, wanted true c text = true) run).
  { eapply Forall_impl; [exact Hrun|]. intros text Ht.
    unfold wanted. simpl. by apply bool_decide_eq_true_2. }
  destruct (Hout pre Hpre) as [_ Hpre']. destruct (Hout post Hpost) as [Hpost' Hpost''].
  unfold acceptedLines, acceptedFrom.
  rewrite (dropWhile_app_all (λ text, negb (wanted true c text))) by done.
  destruct Hin as [|x run Hx Hin]; simpl.
  - rewrite <- (app_nil_r post), dropWhile_app_all by done. done.
  - rewrite Hx. simpl. rewrite Hx. f_equal.
    by rewrite takeWhile_app_all, takeWhile_none, app_nil_r.
Qed.

Section LoaderMore.
Variable os_Open : string → error + File.
Variable strconv_ParseFloat : string → option float.
Variable strings_ToUpper : string → string.

Local Abbreviation body := (scanBody strconv_ParseFloat).
Local Abbreviation loop := (scanLoop strconv_ParseFloat).
Local Abbreviation load := (loadDataset os_Open strconv_ParseFloat strings_ToUpper).
Local Abbreviation built := (recordOf strconv_ParseFloat).

(** An error of the loop comes with the zero value. *)
Lemma loop_error_zero want c toks : ∀ eof inC m zc e,
  loop want c toks eof inC m = (zc, Some e) → zc = Zipcodes_zero.
Proof.
  induction toks as [|t toks IH]; intros eof inC m zc e; simpl.
  - destruct eof; by intros [= <- _].
  - destruct (body want c (Text t) inC m); [by eauto| |by intros [= <- _]].
    destruct (ErrSoFar t); by intros [= <- _].
Qed.

(** X1. Whatever goes wrong, no data comes with an error: when a load
    returns an error, the index it returns next to it is the zero value;
    and the process ends only when [os.Open] fails, with status 1 and
    the error of [os.Open] in the log. *)
Theorem load_error_has_no_data path country :
  (∀ zc e, load path country = Return (zc, Some e) → zc = Zipcodes_zero) ∧
  (∀ status logged, load path country = Exit status logged →
     status = 1%Z ∧ os_Open path = inl logged).
Proof.
  unfold loadDataset. split.
  - intros zc e. destruct (_ && _); [by intros [= <- _]|].
    destruct (os_Open path); [done|]. intros [= H]. by eapply loop_error_zero.
  - intros status logged. destruct (_ && _); [done|].
    destruct (os_Open path); [by intros [= <- <-] | done].
Qed.

(** X2. The invariant of a loaded index: every key holds at least one
    record, and every record is stored under its own code. Hence a
    [Lookup] without error returns exactly one record. *)
Theorem loaded_index_wellformed path country zc code :
  load path country = Return (zc, None) →
  (∀ zipcodes, DatasetList zc !! code = Some zipcodes →
     zipcodes ≠ [] ∧ Forall (λ r, ZipCode r = code) zipcodes) ∧
  (∀ zipcodes, Lookup zc code = (zipcodes, None) → length zipcodes = 1).
Proof.
  intros (file & all & _ & _ & Hzc)%load_ok. split.
  - intros zipcodes. rewrite Hzc. apply index_wellformed.
  - intros zipcodes. unfold Lookup.
    destruct (DatasetList zc !! code) as [l|] eqn:Hl; [|done].
    rewrite Hzc in Hl. apply index_wellformed in Hl as [Hne _].
    destruct (Nat.ltb_spec 1 (length l)); [done|]. intros [= <-].
    destruct l as [|? [|]]; simpl in *; [done|done|lia].
Qed.

(** X3. After a load that returned an index, [Lookup] answers
    [ErrZipcodeNotFound] exactly for the codes that no accepted line
    carries. *)
Theorem lookup_not_found_iff path country file zc code :
  os_Open path = inr file →
  load path country = Return (zc, None) →
  Lookup zc code = ([], Some ErrZipcodeNotFound) ↔
  code ∉ lineCode <$>
    acceptedLines (negb (bool_decide (country = "")))
      (strings_ToUpper country) (Text <$> Tokens file).
Proof.
  intros Hopen (file' & all & Hopen' & Hall & Hzc)%load_ok.
  rewrite Hopen in Hopen'. injection Hopen' as <-.
  rewrite <- (codes_of_built _ _ _ Hall).
  assert (DatasetList zc !! code = None ↔ code ∉ ZipCode <$> all) as <-.
  { rewrite Hzc, lookup_index_of. split.
    - intros Hnone (r & -> & Hr)%list_elem_of_fmap.
      destruct (filter _ all) eqn:Hf; [|done].
      by apply (proj1 (filter_nil_iff _ _) Hf r).
    - intros Hnot. destruct (filter _ all) as [|r rs] eqn:Hf; [done|].
      destruct Hnot. apply list_elem_of_fmap. exists r.
      assert (r ∈ filter (λ r, ZipCode r = code) all) as [? ?]%list_elem_of_filter
        by (rewrite Hf; left). done. }
  unfold Lookup. destruct (DatasetList zc !! code); [|done].
  split; [|done]. by destruct (_ <? _)%nat.
Qed.

(** X4. A loaded index holds the records of the accepted lines, each one
    once: nothing is lost and nothing is repeated. Without a filter these
    are the records of all lines of the file. *)
Theorem loaded_records path country zc :
  load path country = Return (zc, None) →
  ∃ file recs,
    os_Open path = inr file ∧
    mapM built (acceptedLines (negb (bool_decide (country = "")))
                  (strings_ToUpper country) (Text <$> Tokens file)) = Some recs ∧
    allRecords zc ≡ₚ recs ∧
    (country = "" → length (allRecords zc) = length (Tokens file)).
Proof.
  intros (file & all & Hopen & Hall & Hzc)%load_ok.
  exists file, all. split_and!; [done..| |].
  - unfold allRecords. rewrite Hzc, allRecords_foldl.
    by rewrite map_to_list_empty.
  - intros ->. unfold allRecords. rewrite Hzc, allRecords_foldl, map_to_list_empty.
    simpl. unfold acceptedLines in Hall. rewrite acceptedFrom_all in Hall.
    apply mapM_Some, Forall2_length in Hall. by rewrite <- Hall, length_fmap.
Qed.

(** A run of lines that pass the filter, if any, and parse is accepted. *)
Lemma loop_accept want c run rest eof : ∀ inC m recs,
  Forall (λ t, length (lineFields (Text t)) = 12 ∧
               wanted want c (Text t) = true) run →
  mapM built (Text <$> run) = Some recs →
  loop want c (run ++ rest) eof inC m =
    loop want c rest eof (if run is [] then inC else true) (foldl addRecord m recs).
Proof.
  induction run as [|t run IH]; intros inC m recs Hrun Hrecs.
  { apply mapM_Some, Forall2_nil_inv_l in Hrecs as ->. done. }
  apply Forall_cons in Hrun as [[H12 Hw] Hrun].
  rewrite fmap_cons in Hrecs.
  apply mapM_Some, Forall2_cons_inv_l in Hrecs as (r & recs' & Hr & Hrecs & ->).
  apply mapM_Some in Hrecs.
  simpl. rewrite body_wanted by done.
  rewrite Hr. unfold recordOf in Hr.
  destruct (strconv_ParseFloat (lineLat (Text t))); [|done].
  rewrite (IH true (addRecord m r) recs') by done. by destruct run.
Qed.

(** Without a filter the loop ends at the end of the file only. *)
Lemma loop_nofilter_ok c toks : ∀ eof inC m zc,
  loop false c toks eof inC m = (zc, None) →
  eof = None ∧
  Forall (λ t, length (lineFields (Text t)) = 12 ∧ is_Some (built (Text t))) toks.
Proof.
  intros eof inC m zc Hrun.
  split.
  - revert inC m Hrun. induction toks as [|t toks IH]; intros inC m; simpl.
    + by destruct eof.
    + destruct (decide (length (lineFields (Text t)) = 12)) as [H12|H12];
        [|by rewrite body_fields].
      rewrite body_wanted by done.
      destruct (strconv_ParseFloat (lineLat (Text t))); [|done].
      destruct (built (Text t)); [by eauto | done].
  - apply loop_ok in Hrun as (recs & Hrecs & _ & H12).
    rewrite acceptedFrom_all in Hrecs. rewrite scannedFrom_all in H12.
    apply mapM_Some in Hrecs. apply Forall_fmap in H12.
    apply Forall_forall. intros t Ht. split.
    + by apply (proj1 (Forall_forall _ _) H12).
    + apply list_elem_of_lookup in Ht as [i Hi].
      assert ((Text <$> toks) !! i = Some (Text t)) as Hi'
        by by rewrite list_lookup_fmap, Hi.
      destruct (Forall2_lookup_l _ _ _ _ _ Hrecs Hi') as (r & _ & Hr). by exists r.
Qed.

(** Lines that are well formed, parse where they pass the filter, and
    come without a read error always load. *)
Lemma loop_clean want c toks : ∀ inC m,
  Forall (λ t, length (lineFields (Text t)) = 12 ∧ is_Some (built (Text t)) ∧
               ErrSoFar t = None) toks →
  ∃ zc, loop want c toks None inC m = (zc, None).
Proof.
  induction toks as [|t toks IH]; intros inC m Hall; simpl; [by eexists|].
  apply Forall_cons in Hall as [(H12 & [r Hr] & Herr) Hall].
  destruct (wanted want c (Text t)) eqn:Hw.
  - rewrite body_wanted, Hr by done.
    unfold recordOf in Hr.
    destruct (strconv_ParseFloat (lineLat (Text t))); [|done]. by apply IH.
  - rewrite body_unwanted by done. destruct inC; [|by apply IH].
    rewrite Herr. by eexists.
Qed.

(** X5. [New] (a load without filter) returns an index exactly when every
    line of the file has 12 fields and coordinates that parse, and the
    scanner reports no error at the end. *)
Theorem New_succeeds_iff path file :
  os_Open path = inr file →
  (∃ zc, New os_Open strconv_ParseFloat strings_ToUpper path = Return (zc, None)) ↔
  Forall (λ t, length (lineFields (Text t)) = 12 ∧ is_Some (built (Text t)))
    (Tokens file) ∧
  ErrAtEOF file = None.
Proof.
  intros Hopen. unfold New, LoadDataset, loadDataset. rewrite Hopen. simpl. split.
  - intros [zc [= Hrun]]. apply loop_nofilter_ok in Hrun as [? ?]. done.
  - intros [Hall Heof]. rewrite Heof.
    assert (is_Some (mapM built (Text <$> Tokens file))) as [recs Hrecs].
    { apply mapM_is_Some, Forall_fmap. eapply Forall_impl; [done|]. by intros t [_ ?]. }
    eexists. f_equal.
    rewrite <- (app_nil_r (Tokens file)).
    rewrite (loop_accept false _ _ [] None false ∅ recs); [done| |done].
    eapply Forall_impl; [done|]. by intros t [? _].
Qed.

(** X6. Filtering selects: when the file loads both without and with a
    country filter, the records that the filtered index holds under a
    code are among the records of the full index under that code, in the
    same order. *)
Theorem filtered_index_within_full path country zcAll zc code zipcodes :
  New os_Open strconv_ParseFloat strings_ToUpper path = Return (zcAll, None) →
  NewByCountry os_Open strconv_ParseFloat strings_ToUpper path country
    = Return (zc, None) →
  DatasetList zc !! code = Some zipcodes →
  ∃ all, DatasetList zcAll !! code = Some all ∧ zipcodes `sublist_of` all.
Proof.
  intros (file & recsAll & Hopen & HrecsAll & HzcAll)%load_ok
         (file' & recs & Hopen' & Hrecs & Hzc)%load_ok Hcode.
  rewrite Hopen in Hopen'. injection Hopen' as <-.
  unfold acceptedLines in HrecsAll. simpl in HrecsAll.
  rewrite acceptedFrom_all in HrecsAll.
  destruct (mapM_sublist _ _ _ _ HrecsAll
              (accepted_sublist false (negb (bool_decide (country = "")))
                 (strings_ToUpper country) (Text <$> Tokens file)))
    as (recs' & Hrecs' & Hsub).
  unfold acceptedLines in Hrecs. rewrite Hrecs in Hrecs'. injection Hrecs' as <-.
  rewrite Hzc, lookup_index_of in Hcode. rewrite HzcAll, lookup_index_of.
  pose proof (filter_sublist_mono (λ r, ZipCode r = code) _ _ Hsub) as Hf.
  destruct (filter _ recs) as [|r rs]; [done|]. injection Hcode as <-.
  destruct (filter _ recsAll) as [|r' rs']; [by apply sublist_nil_r in Hf|].
  by eexists.
Qed.

(** X7. A file that loads without filter, read without any read error,
    loads under every two-byte country filter. *)
Theorem filter_loads_what_full_load_does path country file zcAll :
  os_Open path = inr file →
  Forall (λ t, ErrSoFar t = None) (Tokens file) →
  String.length country = 2 →
  New os_Open strconv_ParseFloat strings_ToUpper path = Return (zcAll, None) →
  ∃ zc, NewByCountry os_Open strconv_ParseFloat strings_ToUpper path country
        = Return (zc, None).
Proof.
  intros Hopen Hclean Hlen.
  unfold New, NewByCountry, LoadDataset, LoadDatasetByCountry, loadDataset.
  rewrite Hopen, Hlen. simpl. rewrite andb_false_r. intros [= Hrun].
  apply loop_nofilter_ok in Hrun as [-> Hall].
  destruct (loop_clean (negb (bool_decide (country = ""))) (strings_ToUpper country)
              (Tokens file) false ∅) as [zc Hzc]; [|by exists zc; rewrite Hzc].
  apply Forall_forall. intros t Ht.
  destruct (proj1 (Forall_forall _ _) Hall t Ht).
  split_and!; [done..|]. by apply (proj1 (Forall_forall _ _) Hclean).
Qed.

(** X8. On a file whose lines of the country are contiguous the early
    exit loses nothing: the filtered index is built from all lines of
    the file whose country field is the upper-cased filter. *)
Theorem grouped_input_filter_complete path country file pre run post zc :
  country ≠ "" →
  os_Open path = inr file →
  Text <$> Tokens file = pre ++ run ++ post →
  Forall (λ text, lineCountry text ≠ strings_ToUpper country) pre →
  Forall (λ text, lineCountry text = strings_ToUpper country) run →
  Forall (λ text, lineCountry text ≠ strings_ToUpper country) post →
  load path country = Return (zc, None) →
  ∃ recs,
    mapM built (filter (λ text, lineCountry text = strings_ToUpper country)
                  (Text <$> Tokens file)) = Some recs ∧
    DatasetList zc = foldl addRecord ∅ recs.
Proof.
  intros Hsupplied Hopen Hlines Hpre Hrun Hpost
         (file' & recs & Hopen' & Hrecs & Hzc)%load_ok.
  rewrite Hopen in Hopen'. injection Hopen' as <-.
  exists recs. split; [|done].
  rewrite bool_decide_eq_false_2 in Hrecs by done. simpl in Hrecs.
  by rewrite Hlines, <- accepted_grouped, <- Hlines.
Qed.

(** X9. A filter that no line matches gives an empty index and no error,
    whatever the coordinates of the lines: every line has its fields
    counted and is passed over, and every [Lookup] fails afterwards. *)
Theorem no_matching_line_empty_index path country file code :
  country ≠ "" → String.length country = 2 →
  os_Open path = inr file →
  Forall (λ t, length (lineFields (Text t)) = 12 ∧
               lineCountry (Text t) ≠ strings_ToUpper country) (Tokens file) →
  ErrAtEOF file = None →
  load path country = Return ({| DatasetList := ∅ |}, None) ∧
  Lookup {| DatasetList := ∅ |} code = ([], Some ErrZipcodeNotFound).
Proof.
  intros Hsupplied Hlen Hopen Hall Heof. split; [|done].
  unfold loadDataset.
  rewrite bool_decide_eq_false_2, Hlen, Hopen by done. simpl. f_equal.
  rewrite <- (app_nil_r (Tokens file)), loop_skip by done. simpl. by rewrite Heof.
Qed.
End LoaderMore.

(** ** Lines and fields *)

Lemma split_nonempty s sep : strings_Split s sep ≠ [].
Proof.
  induction s as [|c s IH]; simpl; [done|].
  destruct (Ascii.eqb c sep); [done|]. by destruct (strings_Split s sep).
Qed.

(** One field more than separators. *)
Lemma split_length s sep : length (strings_Split s sep) = S (countByte sep s).
Proof.
  induction s as [|c s IH]; simpl; [done|].
  destruct (Ascii.eqb c sep); simpl; [by rewrite IH|].
  destruct (strings_Split s sep); [done | by rewrite <- IH].
Qed.

Lemma split_free s sep : freeOf sep s → strings_Split s sep = [s].
Proof.
  unfold freeOf. induction s as [|c s IH]; simpl; [done|].
  destruct (Ascii.eqb c sep); [done|]. simpl. intros H. by rewrite (IH H).
Qed.

Lemma split_app_free f rest sep :
  freeOf sep f →
  strings_Split (f +:+ String sep rest) sep = f :: strings_Split rest sep.
Proof.
  unfold freeOf. induction f as [|c f IH]; simpl.
  - intros _. by rewrite Ascii.eqb_refl.
  - destruct (Ascii.eqb c sep); [done|]. simpl. intros H. by rewrite (IH H).
Qed.

Lemma split_join fields sep :
  fields ≠ [] → Forall (freeOf sep) fields →
  strings_Split (String.concat (String sep "") fields) sep = fields.
Proof.
  intros Hne Hfree. induction Hfree as [|f fields Hf Hfree IH]; [done|].
  destruct fields as [|g fields].
  - by apply split_free.
  - change (String.concat (String sep "") (f :: g :: fields))
      with (f +:+ String sep (String.concat (String sep "") (g :: fields))).
    rewrite split_app_free by done. f_equal. by apply IH.
Qed.

Lemma join_split s sep : String.concat (String sep "") (strings_Split s sep) = s.
Proof.
  induction s as [|c s IH]; simpl; [done|].
  pose proof (split_nonempty s sep) as Hne.
  destruct (Ascii.eqb_spec c sep) as [->|Hc].
  - destruct (strings_Split s sep) as [|f fs]; [done|]. simpl in *. by rewrite IH.
  - destruct (strings_Split s sep) as [|f fs]; [done|].
    destruct fs; simpl in *; by rewrite <- IH.
Qed.

(** X10. Splitting a line at a separator and joining the pieces with it
    are inverse to each other: the pieces of a line, joined, are the
    line; and pieces free of the separator, joined and split, come back
    unchanged. *)
Theorem split_and_join_are_inverse (sep : ascii) :
  (∀ text, String.concat (String sep "") (strings_Split text sep) = text) ∧
  (∀ fields, fields ≠ [] → Forall (freeOf sep) fields →
     strings_Split (String.concat (String sep "") fields) sep = fields).
Proof. split; [intros; apply join_split | intros; by apply split_join]. Qed.

Section Lines.
Variable strconv_ParseFloat : string → option float.

(** X11. The field check counts tabs: the loop rejects a line for its
    number of fields exactly when the line does not hold 11 tabs; an
    empty line is rejected. *)
Theorem field_check_counts_tabs want country text inC m :
  scanBody strconv_ParseFloat want country text inC m = ReturnErr errFields ↔
  countByte tab text ≠ 11.
Proof.
  pose proof (split_length text tab) as Hlen. fold (lineFields text) in Hlen.
  split.
  - intros Hbody Htabs. rewrite Htabs in Hlen.
    destruct (wanted want country text) eqn:Hw.
    + rewrite body_wanted in Hbody by done.
      destruct (strconv_ParseFloat (lineLat text)); [|by simplify_eq/=].
      destruct (recordOf strconv_ParseFloat text); by simplify_eq/=.
    + rewrite body_unwanted in Hbody by done. by destruct inC.
  - intros Htabs. apply body_fields. lia.
Qed.

(** X12. From fields to record: a line written as 12 tab-free fields
    joined by tabs, whose fields 9 and 10 parse, adds under field 1 the
    record made of fields 1, 2, 3 and 4 and of the two parsed
    coordinates, when no filter is set. *)
Theorem joined_fields_give_record fields lat lon country inC m :
  length fields = 12 →
  Forall (freeOf tab) fields →
  strconv_ParseFloat (nth 9 fields "") = Some lat →
  strconv_ParseFloat (nth 10 fields "") = Some lon →
  scanBody strconv_ParseFloat false country
    (String.concat (String tab "") fields) inC m =
  Next true (addRecord m {| ZipCode := nth 1 fields "";
                            PlaceName := nth 2 fields "";
                            AdminName := nth 3 fields "";
                            Lat := lat; Lon := lon;
                            StateCode := nth 4 fields "" |}).
Proof.
  intros Hlen Hfree Hlat Hlon.
  assert (Hsplit : lineFields (String.concat (String tab "") fields) = fields).
  { apply split_join; [by destruct fields | done]. }
  rewrite body_wanted; [|by rewrite Hsplit|done].
  unfold recordOf, lineLat, lineLon, lineCode. rewrite Hsplit, Hlat, Hlon. done.
Qed.
End Lines.

(** ** Lookup and [IsMulti] *)

(** X13. The warning of [Lookup] is [IsMulti] of what it returns: the
    error is [ErrMultipleLatLon] exactly when the returned sequence has
    several records, and a failed [Lookup] returns a sequence that is
    empty and not multiple. *)
Theorem lookup_warning_is_IsMulti (zc : Zipcodes) (code : string) :
  ((Lookup zc code).2 = Some ErrMultipleLatLon ↔ IsMulti (Lookup zc code).1 = true) ∧
  ((Lookup zc code).2 = Some ErrZipcodeNotFound →
     (Lookup zc code).1 = [] ∧ IsMulti (Lookup zc code).1 = false).
Proof.
  unfold Lookup, IsMulti. destruct (DatasetList zc !! code) as [l|]; simpl.
  - destruct (1 <? length l)%nat eqn:Hl; simpl; rewrite ?Hl; by split.
  - by split.
Qed.

(** * Further properties of the distance and of the radius search *)

(** ** Binary64 order and zero *)

Lemma finite_SF (x : float) :
  is_finite x = true →
  (∃ s, Prim2SF x = S754_zero s) ∨ (∃ s m e, Prim2SF x = S754_finite s m e).
Proof.
  unfold is_finite, Prim2SF. intros H.
  apply negb_true_iff, orb_false_iff in H as [-> ->].
  destruct (is_zero x); [left; eauto|]. simpl.
  destruct (Z.frexp x) as [r e].
  destruct (shr_fexp _ _ _ _ _) as [shr e'].
  destruct (shr_m shr); [left|right|left]; eauto.
Qed.

Lemma float_sub_self (x : float) : is_finite x = true → (x - x)%float = 0%float.
Proof.
  intros H. apply Prim2SF_inj. rewrite sub_spec. unfold SF64sub.
  destruct (finite_SF x H) as [[s ->]|(s & m & e & ->)].
  - by destruct s.
  - simpl. by rewrite Z.sub_diag.
Qed.

Lemma float_add_mul_zero (x : float) :
  is_finite x = true → (0 + x * 0)%float = 0%float.
Proof.
  intros H. apply Prim2SF_inj. rewrite add_spec, mul_spec. unfold SF64add, SF64mul.
  destruct (finite_SF x H) as [[s ->]|(s & m & e & ->)].
  - by destruct s.
  - change (Prim2SF 0) with (S754_zero false). simpl. by destruct s.
Qed.

Lemma SFcompare_lt_le_trans x y z :
  SFltb x y = true → SFleb y z = true → SFltb x z = true.
Proof.
  unfold SFltb, SFleb, SFcompare.
  destruct x as [[]|[]| |[] mx ex], y as [[]|[]| |[] my ey], z as [[]|[]| |[] mz ez];
    simpl; try done;
    destruct (Z.compare_spec ex ey), (Z.compare_spec ey ez), (Z.compare_spec ex ez);
    try lia; try done; subst;
    change (Pos.compare_cont Eq) with Pos.compare;
    destruct (Pos.compare_spec mx my), (Pos.compare_spec my mz), (Pos.compare_spec mx mz);
    simpl; try lia; try done.
Qed.

Lemma float_lt_le_trans (x y z : float) :
  (x <? y)%float = true → (y <=? z)%float = true → (x <? z)%float = true.
Proof. rewrite !ltb_spec, leb_spec. apply SFcompare_lt_le_trans. Qed.

Lemma float_ltb_nan (x : float) : (x <? nan)%float = false.
Proof.
  rewrite ltb_spec. unfold SFltb, SFcompare. change (Prim2SF nan) with S754_nan.
  by destruct (Prim2SF x).
Qed.

Lemma filter_impl_sublist {A} (P Q : A → Prop)
    `{∀ x, Decision (P x)} `{∀ x, Decision (Q x)} (l : list A) :
  (∀ x, P x → Q x) → filter P l `sublist_of` filter Q l.
Proof.
  intros HPQ. induction l as [|x l IH]; [done|]. rewrite !filter_cons.
  destruct (decide (P x)) as [HP|HP], (decide (Q x)) as [HQ|HQ].
  - by constructor.
  - by destruct HQ; apply HPQ.
  - by constructor.
  - done.
Qed.

Lemma elem_of_allRecords zc r :
  r ∈ allRecords zc ↔ ∃ k zipcodes, DatasetList zc !! k = Some zipcodes ∧ r ∈ zipcodes.
Proof.
  unfold allRecords. rewrite list_elem_of_join. split.
  - intros (l & Hr & [[k l'] [-> Hkl]]%list_elem_of_fmap).
    exists k, l'. split; [by apply elem_of_map_to_list | done].
  - intros (k & l & Hk & Hr). exists l. split; [done|].
    apply list_elem_of_fmap. exists (k, l). split; [done|].
    by apply elem_of_map_to_list.
Qed.

Section GeoMore.
Variable os_Open : string → error + File.
Variable strconv_ParseFloat : string → option float.
Variable strings_ToUpper : string → string.
Variables math_Sin math_Cos math_Sqrt math_Round : float → float.
Variables math_Atan2 math_Pow : float → float → float.

Local Abbreviation load := (loadDataset os_Open strconv_ParseFloat strings_ToUpper).
Local Abbreviation find :=
  (FindZipcodesWithinRadius math_Sin math_Cos math_Sqrt math_Round
     math_Atan2 math_Pow).
Local Abbreviation isNear :=
  (near math_Sin math_Cos math_Sqrt math_Round math_Atan2 math_Pow).

(** X14. What the radius search reports over a loaded index can be
    looked up: every code in the result is a key of the index, so
    [Lookup] returns records for it and not [ErrZipcodeNotFound]. *)
Theorem radius_results_can_be_looked_up
    path country zc origin maxRadius earthRadius out code :
  load path country = Return (zc, None) →
  find zc origin maxRadius earthRadius out →
  code ∈ out →
  (Lookup zc code).1 ≠ [] ∧ (Lookup zc code).2 ≠ Some ErrZipcodeNotFound.
Proof.
  intros (file & all & _ & _ & Hzc)%load_ok [Hout _]%find_spec Hcode.
  rewrite Hout in Hcode.
  apply list_elem_of_fmap in Hcode as (r & -> & [_ Hr]%list_elem_of_filter).
  apply elem_of_allRecords in Hr as (k & zipcodes & Hk & Hr).
  pose proof Hk as Hk'. rewrite Hzc in Hk'.
  apply index_wellformed in Hk' as [Hne Hcodes].
  rewrite (proj1 (Forall_forall _ _) Hcodes r Hr).
  unfold Lookup. rewrite Hk. by destruct (_ <? _)%nat.
Qed.

(** X15. A larger radius never loses a result: for [r1 <= r2] the codes
    reported within [r1] are, with their multiplicities, among the codes
    reported within [r2], whatever the orders in which the two calls
    visit the map. *)
Theorem radius_search_monotone zc origin r1 r2 earthRadius out1 out2 :
  (r1 <=? r2)%float = true →
  find zc origin r1 earthRadius out1 →
  find zc origin r2 earthRadius out2 →
  out1 ⊆+ out2.
Proof.
  intros Hle [-> _]%find_spec [-> _]%find_spec.
  apply sublist_submseteq, fmap_sublist, filter_impl_sublist.
  intros r. unfold near. rewrite !andb_true_iff. intros [? Hlt].
  split; [done|]. by eapply float_lt_le_trans.
Qed.

(** X16. The radius search reports nothing when the radius is NaN, when
    the index is empty, and when every record of the index carries the
    code of the origin. *)
Theorem radius_search_reports_nothing zc origin maxRadius earthRadius out :
  find zc origin maxRadius earthRadius out →
  maxRadius = nan ∨ DatasetList zc = ∅ ∨
    Forall (λ r, ZipCode r = ZipCode origin) (allRecords zc) →
  out = [].
Proof.
  intros [Hout _]%find_spec Hcase.
  apply Permutation_nil_r. rewrite Hout.
  assert (filter (λ r, isNear origin maxRadius earthRadius r = true) (allRecords zc)
          = []) as ->; [|done].
  apply filter_nil_iff. intros r Hr. unfold near.
  destruct Hcase as [->|[Hempty|Hall]].
  - rewrite float_ltb_nan. by rewrite andb_false_r.
  - unfold allRecords in Hr. rewrite Hempty, map_to_list_empty in Hr.
    by apply elem_of_nil in Hr.
  - rewrite (proj1 (Forall_forall _ _) Hall r Hr).
    by rewrite bool_decide_eq_true_2.
Qed.

Section SelfDistance.
(** Values of Go's [math] functions at the arguments a zero distance
    goes through. *)
Hypothesis math_Sin_0 : math_Sin 0 = 0%float.
Hypothesis math_Pow_0 : math_Pow 0 2 = 0%float.
Hypothesis math_Sqrt_0 : math_Sqrt 0 = 0%float.
Hypothesis math_Sqrt_1 : math_Sqrt 1 = 1%float.
Hypothesis math_Atan2_0 : math_Atan2 0 1 = 0%float.
Hypothesis math_Round_0 : math_Round 0 = 0%float.

(** X17. The distance of a point to itself is zero, in kilometres and in
    miles, when its coordinates are finite in radians and the square of
    the cosine of its latitude is finite. *)
Theorem self_distance_is_zero (A : ZipCodeLocation) :
  is_finite (degreesToRadians (Lat A)) = true →
  is_finite (degreesToRadians (Lon A)) = true →
  is_finite (math_Cos (degreesToRadians (Lat A)) *
             math_Cos (degreesToRadians (Lat A))) = true →
  DistanceInKm math_Sin math_Cos math_Sqrt math_Round math_Atan2 math_Pow A A
    = 0%float ∧
  DistanceInMiles math_Sin math_Cos math_Sqrt math_Round math_Atan2 math_Pow A A
    = 0%float.
Proof.
  intros Hlat Hlon Hcos.
  unfold DistanceInKm, DistanceInMiles, CalculateDistance, DistanceBetweenPoints, hsin.
  rewrite !float_sub_self by done.
  change (0 / 2)%float with 0%float.
  rewrite math_Sin_0, math_Pow_0, float_add_mul_zero by done.
  change (1 - 0)%float with 1%float.
  rewrite math_Sqrt_0, math_Sqrt_1, math_Atan2_0.
  change (2 * 0 * earthRadiusKm * 100)%float with 0%float.
  change (2 * 0 * earthRadiusMi * 100)%float with 0%float.
  rewrite math_Round_0. done.
Qed.
End SelfDistance.

Section Mutual.
Hypothesis math_Sin_odd : ∀ x, math_Sin (- x) = (- math_Sin x)%float.
Hypothesis math_Pow_even : ∀ x, math_Pow (- x) 2 = math_Pow x 2.

Lemma near_swap A B maxRadius earthRadius :
  isNear A maxRadius earthRadius B = isNear B maxRadius earthRadius A.
Proof.
  unfold near.
  rewrite (distance_swap math_Sin math_Cos math_Sqrt math_Round math_Atan2 math_Pow
             math_Sin_odd math_Pow_even (Lat A) (Lon A) (Lat B) (Lon B)).
  f_equal. f_equal. apply bool_decide_ext. split; congruence.
Qed.

(** X18. Being within the radius is mutual: when a record B of the index
    has another code than a record A of the index and lies within the
    radius of A, the search around A reports the code of B and the
    search around B reports the code of A. *)
Theorem radius_search_mutual zc A B maxRadius earthRadius outA outB :
  A ∈ allRecords zc → B ∈ allRecords zc →
  isNear A maxRadius earthRadius B = true →
  find zc A maxRadius earthRadius outA →
  find zc B maxRadius earthRadius outB →
  ZipCode B ∈ outA ∧ ZipCode A ∈ outB.
Proof.
  intros HA HB Hnear [-> _]%find_spec [-> _]%find_spec.
  split; apply list_elem_of_fmap; [exists B | exists A];
    (split; [done|]); apply list_elem_of_filter; (split; [|done]).
  - done.
  - by rewrite near_swap.
Qed.
End Mutual.
End GeoMore.

(** ** The sample environment at work, continued *)

Lemma load_error_has_no_data_witness :
  Sample.load "wrong_lat.txt" "" =
    Return (Zipcodes_zero, Some "zipcodes: error while converting WRONG to Latitude") ∧
  Zipcodes_zero = Zipcodes_zero ∧
  1%Z = 1%Z ∧
  Sample.os_Open "missing.txt" = inl "open missing.txt: no such file or directory".
Proof.
  split; [vm_compute; reflexivity|]. split.
  - apply (proj1 (load_error_has_no_data Sample.os_Open Sample.ParseFloat
                    Sample.ToUpper "wrong_lat.txt" "")
             Zipcodes_zero "zipcodes: error while converting WRONG to Latitude").
    vm_compute. reflexivity.
  - apply (proj2 (load_error_has_no_data Sample.os_Open Sample.ParseFloat
                    Sample.ToUpper "missing.txt" "")
             1%Z "open missing.txt: no such file or directory").
    vm_compute. reflexivity.
Defined.

Lemma loaded_index_wellformed_witness :
  ∃ zipcodes,
    DatasetList Sample.valid !! "01945" = Some zipcodes ∧
    zipcodes ≠ [] ∧ Forall (λ r, ZipCode r = "01945") zipcodes.
Proof.
  eexists. split; [vm_compute; reflexivity|].
  apply (proj1 (loaded_index_wellformed Sample.os_Open Sample.ParseFloat
                  Sample.ToUpper "valid.txt" "" Sample.valid "01945"
                  ltac:(vm_compute; reflexivity))).
  vm_compute. reflexivity.
Defined.

Lemma lookup_not_found_iff_witness :
  Lookup Sample.valid "XYZ" = ([], Some ErrZipcodeNotFound) ↔
  "XYZ" ∉ lineCode <$> acceptedLines false (Sample.ToUpper "")
                         (Text <$> Tokens Sample.valid_file).
Proof.
  apply (lookup_not_found_iff Sample.os_Open Sample.ParseFloat Sample.ToUpper
           "valid.txt" "" Sample.valid_file Sample.valid "XYZ");
    vm_compute; reflexivity.
Defined.

Lemma loaded_records_witness :
  Sample.load "valid.txt" "" = Return (Sample.valid, None) ∧
  ∃ file recs,
    Sample.os_Open "valid.txt" = inr file ∧
    mapM (recordOf Sample.ParseFloat)
      (acceptedLines false (Sample.ToUpper "") (Text <$> Tokens file)) = Some recs ∧
    allRecords Sample.valid ≡ₚ recs ∧
    ("" = "" → length (allRecords Sample.valid) = length (Tokens file)).
Proof.
  split; [vm_compute; reflexivity|].
  apply (loaded_records Sample.os_Open Sample.ParseFloat Sample.ToUpper
           "valid.txt" "" Sample.valid).
  vm_compute. reflexivity.
Defined.

Lemma New_succeeds_iff_witness :
  (∃ zc, New Sample.os_Open Sample.ParseFloat Sample.ToUpper "valid.txt"
         = Return (zc, None)) ↔
  Forall (λ t, length (lineFields (Text t)) = 12 ∧
               is_Some (recordOf Sample.ParseFloat (Text t)))
    (Tokens Sample.valid_file) ∧
  ErrAtEOF Sample.valid_file = None.
Proof.
  apply (New_succeeds_iff Sample.os_Open Sample.ParseFloat Sample.ToUpper
           "valid.txt" Sample.valid_file).
  vm_compute. reflexivity.
Defined.

Lemma filtered_index_within_full_witness :
  ∃ zipcodes all,
    DatasetList Sample.valid_us !! "10001" = Some zipcodes ∧
    DatasetList Sample.valid !! "10001" = Some all ∧
    zipcodes `sublist_of` all.
Proof.
  eexists.
  destruct (filtered_index_within_full Sample.os_Open Sample.ParseFloat
              Sample.ToUpper "valid.txt" "us" Sample.valid Sample.valid_us "10001" _
              ltac:(vm_compute; reflexivity) ltac:(vm_compute; reflexivity)
              ltac:(vm_compute; reflexivity)) as (all & Hall & Hsub).
  exists all. split_and!; [vm_compute; reflexivity | done | done].
Defined.

Lemma filter_loads_what_full_load_does_witness :
  ∃ zc, NewByCountry Sample.os_Open Sample.ParseFloat Sample.ToUpper "valid.txt" "us"
        = Return (zc, None).
Proof.
  apply (filter_loads_what_full_load_does Sample.os_Open Sample.ParseFloat
           Sample.ToUpper "valid.txt" "us" Sample.valid_file Sample.valid).
  - vm_compute. reflexivity.
  - by_evaluation.
  - reflexivity.
  - vm_compute. reflexivity.
Defined.

Lemma grouped_input_filter_complete_witness :
  ∃ recs,
    mapM (recordOf Sample.ParseFloat)
      (filter (λ text, lineCountry text = Sample.ToUpper "us")
         (Text <$> Tokens Sample.valid_file)) = Some recs ∧
    DatasetList Sample.valid_us = foldl addRecord ∅ recs.
Proof.
  apply (grouped_input_filter_complete Sample.os_Open Sample.ParseFloat
           Sample.ToUpper "valid.txt" "us" Sample.valid_file
           (Text <$> [Sample.guteborn; Sample.ruhland; Sample.hermsdorf; Sample.cottbus])
           (Text <$> [Sample.newyork; Sample.albany]) []).
  - discriminate.
  - vm_compute. reflexivity.
  - vm_compute. reflexivity.
  - by_evaluation.
  - by_evaluation.
  - constructor.
  - vm_compute. reflexivity.
Defined.

Lemma no_matching_line_empty_index_witness :
  Sample.load "valid.txt" "fr" = Return ({| DatasetList := ∅ |}, None) ∧
  Lookup {| DatasetList := ∅ |} "01945" = ([], Some ErrZipcodeNotFound).
Proof.
  apply (no_matching_line_empty_index Sample.os_Open Sample.ParseFloat
           Sample.ToUpper "valid.txt" "fr" Sample.valid_file "01945").
  - discriminate.
  - reflexivity.
  - vm_compute. reflexivity.
  - by_evaluation.
  - reflexivity.
Defined.

Lemma split_and_join_are_inverse_witness :
  strings_Split (String.concat (String tab "") ["DE"; "01945"; ""; "Guteborn"]) tab
  = ["DE"; "01945"; ""; "Guteborn"].
Proof.
  apply (proj2 (split_and_join_are_inverse tab)); [discriminate|].
  repeat (constructor; [reflexivity|]). constructor.
Defined.

Lemma joined_fields_give_record_witness :
  Text Sample.guteborn =
    String.concat (String tab "")
      ["DE"; "01945"; "Guteborn"; "Brandenburg"; "BB"; ""; "00"; ""; "";
       "51.4167"; "13.9333"; ""] ∧
  scanBody Sample.ParseFloat false "" (Text Sample.guteborn) false ∅ =
    Next true (addRecord ∅ Sample.origin).
Proof.
  split; [reflexivity|].
  apply (joined_fields_give_record Sample.ParseFloat
           ["DE"; "01945"; "Guteborn"; "Brandenburg"; "BB"; ""; "00"; ""; "";
            "51.4167"; "13.9333"; ""]
           (Lat Sample.origin) (Lon Sample.origin) "" false ∅).
  - reflexivity.
  - repeat (constructor; [reflexivity|]). constructor.
  - vm_compute. reflexivity.
  - vm_compute. reflexivity.
Defined.

Lemma Sample_search (radius : float) :
  FindZipcodesWithinRadius Sample.Sin Sample.Cos Sample.Sqrt Sample.Round
    Sample.Atan2 Sample.Pow Sample.valid Sample.origin radius earthRadiusKm
    (FindZipcodesWithinRadius_visiting Sample.Sin Sample.Cos Sample.Sqrt Sample.Round
       Sample.Atan2 Sample.Pow (map_to_list (DatasetList Sample.valid))
       Sample.origin radius earthRadiusKm).
Proof. by exists (map_to_list (DatasetList Sample.valid)). Qed.

Lemma radius_results_can_be_looked_up_witness :
  (Lookup Sample.valid "03058").1 ≠ [] ∧
  (Lookup Sample.valid "03058").2 ≠ Some ErrZipcodeNotFound.
Proof.
  apply (radius_results_can_be_looked_up Sample.os_Open Sample.ParseFloat
           Sample.ToUpper Sample.Sin Sample.Cos Sample.Sqrt Sample.Round
           Sample.Atan2 Sample.Pow "valid.txt" "" Sample.valid Sample.origin
           50 earthRadiusKm ["03058"; "01946"] "03058").
  - vm_compute. reflexivity.
  - exact (Sample_search 50).
  - by_evaluation.
Defined.

Lemma radius_search_monotone_witness : ["01946"] ⊆+ ["03058"; "01946"].
Proof.
  apply (radius_search_monotone Sample.Sin Sample.Cos Sample.Sqrt Sample.Round
           Sample.Atan2 Sample.Pow Sample.valid Sample.origin 10 50 earthRadiusKm).
  - reflexivity.
  - exact (Sample_search 10).
  - exact (Sample_search 50).
Defined.

Lemma radius_search_reports_nothing_witness :
  FindZipcodesWithinRadius_visiting Sample.Sin Sample.Cos Sample.Sqrt Sample.Round
    Sample.Atan2 Sample.Pow (map_to_list (DatasetList Sample.valid))
    Sample.origin nan earthRadiusKm = [].
Proof.
  apply (radius_search_reports_nothing Sample.Sin Sample.Cos Sample.Sqrt Sample.Round
           Sample.Atan2 Sample.Pow Sample.valid Sample.origin nan earthRadiusKm).
  - exact (Sample_search nan).
  - left. reflexivity.
Defined.

Lemma self_distance_is_zero_witness :
  DistanceInKm Sample.Sin Sample.Cos Sample.Sqrt Sample.Round Sample.Atan2
    Sample.Pow Sample.origin Sample.origin = 0%float ∧
  DistanceInMiles Sample.Sin Sample.Cos Sample.Sqrt Sample.Round Sample.Atan2
    Sample.Pow Sample.origin Sample.origin = 0%float.
Proof.
  apply (self_distance_is_zero Sample.Sin Sample.Cos Sample.Sqrt Sample.Round
           Sample.Atan2 Sample.Pow); vm_compute; reflexivity.
Defined.

Lemma radius_search_mutual_witness :
  ZipCode Sample.other ∈ ["03058"; "01946"] ∧
  ZipCode Sample.origin ∈
    FindZipcodesWithinRadius_visiting Sample.Sin Sample.Cos Sample.Sqrt Sample.Round
      Sample.Atan2 Sample.Pow (map_to_list (DatasetList Sample.valid))
      Sample.other 50 earthRadiusKm.
Proof.
  apply (radius_search_mutual Sample.Sin Sample.Cos Sample.Sqrt Sample.Round
           Sample.Atan2 Sample.Pow Sample_Sin_odd Sample_Pow_even
           Sample.valid Sample.origin Sample.other 50 earthRadiusKm).
  - apply elem_of_allRecords. exists "01945". eexists.
    split; [vm_compute; reflexivity | left].
  - apply elem_of_allRecords. exists "03058". eexists.
    split; [vm_compute; reflexivity | left].
  - vm_compute. reflexivity.
  - exact (Sample_search 50).
  - by exists (map_to_list (DatasetList Sample.valid)).
Defined.
